(** * TriangulationFactor: a unary projection factor for a known camera

    A shallow embedding of [gtsam/geometry/TriangulationFactor.h].

    The factor owns a camera and a 2D measurement and constrains one unknown
    3D point.  Its two operations are [evaluateError] (residual and optional
    Jacobian, with a policy for points that project behind the camera) and
    [linearize] (the whitened Jacobian factor, built in scratch members that
    are reused from one call to the next).

    Numbers are IEEE binary64 values, as [double] is in the source.  C++
    exceptions are outcomes, [std::cout] and the heap of objects are fields of
    an explicit world that every operation threads through. *)

From Stdlib Require Import String Ascii List Bool Arith Lia.
From Stdlib Require Import Floats.PrimFloat.
From stdpp Require Import base option list gmap.

Local Open Scope string_scope.
Local Open Scope list_scope.
Set Default Proof Using "Type".
Set Warnings "-inexact-float".

(** ** Scalars, vectors and matrices *)

(** [double]. *)
Abbreviation double := PrimFloat.float (only parsing).

(** Eigen's dynamic [Vector] and [Matrix] (a matrix is the list of its
    rows). *)
Definition Vector := list double.
Definition Matrix := list (list double).

(** [Matrix::Zero(r, c)]. *)
Definition Matrix_Zero (r c : nat) : Matrix := replicate r (replicate c 0%float).

(** [Z_2x3], the constant zero 2x3 matrix. *)
Definition Z_2x3 : Matrix := Matrix_Zero 2 3.

(** [ones(n)]. *)
Definition ones (n : nat) : Vector := replicate n 1%float.

(** [v * s], a vector times a scalar. *)
Definition Vector_scale (v : Vector) (s : double) : Vector :=
  map (fun c => (c * s)%float) v.

(** Unary minus on a vector. *)
Definition Vector_opp (v : Vector) : Vector := map PrimFloat.opp v.

(** A vector seen as a one-column matrix, as when it is assigned to a block. *)
Definition column (v : Vector) : Matrix := map (fun c => [c]) v.

(** A vector all of whose components are finite numbers (no NaN, no
    infinity). *)
Definition Vector_finite (v : Vector) : bool := forallb PrimFloat.is_finite v.

(** [Point2] and [Point3]. *)
Record Point2 : Type := mkPoint2 { p2x : double; p2y : double }.
Record Point3 : Type := mkPoint3 { p3x : double; p3y : double; p3z : double }.

(** [Point2::operator-] and [Point2::vector()]. *)
Definition Point2_sub (p q : Point2) : Point2 :=
  mkPoint2 (p2x p - p2x q)%float (p2y p - p2y q)%float.
Definition Point2_vector (p : Point2) : Vector := [p2x p; p2y p].

(** [VerticalBlockMatrix]: a number of rows and the list of its column
    blocks. *)
Record VerticalBlockMatrix : Type := mkVBM {
  vbm_rows : nat;
  vbm_blocks : list Matrix
}.

(** The default-constructed block matrix: no rows, no blocks. *)
Definition VerticalBlockMatrix_empty : VerticalBlockMatrix := mkVBM 0 [].

(** [VerticalBlockMatrix(dimensions, height, appendOneDimension)]: one block
    per entry of [dimensions], and a last block of one column when
    [appendOneDimension] is set.  C++ leaves the entries uninitialised; they
    are zero here.  [linearize] writes every one of them before it reads any,
    so the zeros show only in the object a call leaves when it ends between
    the allocation and the block assignments; of those entries the model says
    nothing about the program. *)
Definition VerticalBlockMatrix_new (dimensions : list nat) (height : nat)
    (appendOneDimension : bool) : VerticalBlockMatrix :=
  mkVBM height
    (map (Matrix_Zero height) dimensions
       ++ (if appendOneDimension then [Matrix_Zero height 1] else [])).

(** ** Keys, values, exceptions *)

(** [Key] ([size_t]) and addresses of heap objects. *)
Abbreviation Key := N (only parsing).
Abbreviation loc := N (only parsing).

(** The exceptions that cross this file. *)
Inductive exception : Type :=
| invalid_argument (what : string)
| CheiralityException (what : string)
| ValuesKeyDoesNotExist (key : Key)
| other_exception (what : string).

(** How a call ends: with a value, with an exception in flight, or in
    undefined behaviour (a dangling [this], a block index out of range). *)
Inductive Outcome (T : Type) : Type :=
| Returned (v : T)
| Thrown (e : exception)
| Undefined.
Arguments Returned {T} v.
Arguments Thrown {T} e.
Arguments Undefined {T}.

(** Modelled from the spec: the values store, which is not part of this file
    of the repository.  It maps variable keys to their current 3D points, and
    a lookup of an absent key fails. *)
Abbreviation Values := (gmap N Point3) (only parsing).

Definition Values_at (x : Values) (j : Key) : Outcome Point3 :=
  match x !! j with
  | Some p => Returned p
  | None => Thrown (ValuesKeyDoesNotExist j)
  end.

(** ** A state and exception monad *)

Module Exn.

Definition M (S T : Type) : Type := S -> Outcome T * S.

Definition ret {S T} (v : T) : M S T := fun s => (Returned v, s).

Definition throw {S T} (e : exception) : M S T := fun s => (Thrown e, s).

Definition undefined {S T} : M S T := fun s => (Undefined, s).

Definition bind {S T U} (m : M S T) (k : T -> M S U) : M S U :=
  fun s =>
    match m s with
    | (Returned v, s') => k v s'
    | (Thrown e, s') => (Thrown e, s')
    | (Undefined, s') => (Undefined, s')
    end.

(** [try { m } catch (...) { h }]: what [m] did to the state before it threw
    stays done. *)
Definition try_catch {S T} (m : M S T) (h : exception -> M S T) : M S T :=
  fun s =>
    match m s with
    | (Thrown e, s') => h e s'
    | r => r
    end.

Definition modify {S} (f : S -> S) : M S unit := fun s => (Returned tt, f s).

(** A call that has an outcome and no effect on the state. *)
Definition lift {S T} (o : Outcome T) : M S T := fun s => (o, s).

(** [if (c) m;] *)
Definition when {S} (c : bool) (m : M S unit) : M S unit :=
  if c then m else ret tt.

End Exn.

Import Exn.

Notation "'let*' x ':=' m 'in' k" := (bind m (fun x => k))
  (at level 10, x name, m at level 100, k at level 200).
Notation "m '>>' k" := (bind m (fun _ => k))
  (at level 100, k at level 200, right associativity).

(** ** The collaborators of the factor

    The camera with its calibration, the noise model and the key formatter are
    declared in other files of the library.  The factor uses them through the
    operations below, one instance per choice of the template argument
    [CALIBRATION]. *)
Class Geometry : Type := {
  (** [PinholeCamera<CALIBRATION>] *)
  Camera : Type;
  (** [noiseModel::Base], the pointee of a [SharedNoiseModel] *)
  NoiseModel : Type;
  (** Factors whose dynamic type is not [TriangulationFactor<CALIBRATION>]:
      other factor classes, and triangulation factors over another
      calibration. *)
  ForeignFactor : Type;
  (** [camera.project(point, boost::none, Dpoint, boost::none)]: the pixel
      and the 2x3 derivative in the point, or an exception
      ([CheiralityException] for a point behind the camera), in which case
      the caller's [Dpoint] is left as it was. *)
  Camera_project : Camera -> Point3 -> Outcome (Point2 * Matrix);
  (** [camera.calibration().fx()] *)
  Camera_fx : Camera -> double;
  (** [camera.equals(other, tol)] and [point.equals(other, tol)] *)
  Camera_equals : Camera -> Camera -> double -> bool;
  Point2_equals : Point2 -> Point2 -> double -> bool;
  (** [model->dim()] and [model->WhitenSystem(A, b)], which rewrites both
      arguments *)
  NoiseModel_dim : NoiseModel -> nat;
  WhitenSystem : NoiseModel -> Matrix -> Vector -> Matrix * Vector;
  (** [DefaultKeyFormatter(key)] *)
  DefaultKeyFormatter : Key -> string
}.

Section Factor.

Context {G : Geometry}.

(** [SharedNoiseModel]: a shared pointer, which may be null. *)
Definition SharedNoiseModel : Type := option NoiseModel.

(** The base class [NoiseModelFactor1<Point3>]: the noise model and the one
    key of a unary factor. *)
Record NoiseModelFactor1 : Type := mkBase {
  noiseModel_ : SharedNoiseModel;
  key_ : Key
}.

(** [TriangulationFactor<CALIBRATION>].  The first five fields are [const]
    in the source; [Ab], [A] and [b] are its [mutable] scratch members. *)
Record TriangulationFactor : Type := mkFactor {
  Base : NoiseModelFactor1;
  camera_ : Camera;
  measured_ : Point2;
  throwCheirality_ : bool;
  verboseCheirality_ : bool;
  Ab : VerticalBlockMatrix;
  A : Matrix;
  b : Vector
}.

(** [key()] and [keys_] of the base class. *)
Definition key (f : TriangulationFactor) : Key := key_ (Base f).
Definition keys_ (f : TriangulationFactor) : list Key := [key f].

(** The accessors. *)
Definition measured (f : TriangulationFactor) : Point2 := measured_ f.
Definition verboseCheirality (f : TriangulationFactor) : bool :=
  verboseCheirality_ f.
Definition throwCheirality (f : TriangulationFactor) : bool :=
  throwCheirality_ f.

(** Writing the scratch members. *)
Definition set_Ab (v : VerticalBlockMatrix) (f : TriangulationFactor) :=
  mkFactor (Base f) (camera_ f) (measured_ f) (throwCheirality_ f)
    (verboseCheirality_ f) v (A f) (b f).
Definition set_A (v : Matrix) (f : TriangulationFactor) :=
  mkFactor (Base f) (camera_ f) (measured_ f) (throwCheirality_ f)
    (verboseCheirality_ f) (Ab f) v (b f).
Definition set_b (v : Vector) (f : TriangulationFactor) :=
  mkFactor (Base f) (camera_ f) (measured_ f) (throwCheirality_ f)
    (verboseCheirality_ f) (Ab f) (A f) v.

(** A [NonlinearFactor&]: an object whose dynamic type is this class, or
    one of another class. *)
Inductive NonlinearFactor : Type :=
| OfThis (f : TriangulationFactor)
| OfForeign (o : ForeignFactor).

(** [dynamic_cast<const This*>(&p)], null for an object of another class. *)
Definition dynamic_cast_This (p : NonlinearFactor) : option TriangulationFactor :=
  match p with
  | OfThis f => Some f
  | OfForeign _ => None
  end.

(** [JacobianFactor(keys, Ab)], the linear factor handed to the solver. *)
Record JacobianFactor : Type := mkJacobianFactor {
  jf_keys : list Key;
  jf_Ab : VerticalBlockMatrix
}.

(** ** The constructor *)

Definition dimension_message : string :=
  "TriangulationFactor must be created with 2-dimensional noise model.".

Definition TriangulationFactor_ctor (camera : Camera) (measured : Point2)
    (model : SharedNoiseModel) (pointKey : Key)
    (throwCheirality verboseCheirality : bool) : Outcome TriangulationFactor :=
  match model with
  | Some m =>
      if negb (Nat.eqb (NoiseModel_dim m) 2)
      then Thrown (invalid_argument dimension_message)
      else Returned (mkFactor (mkBase model pointKey) camera measured
                       throwCheirality verboseCheirality
                       VerticalBlockMatrix_empty [] [])
  | None =>
      Returned (mkFactor (mkBase model pointKey) camera measured
                  throwCheirality verboseCheirality
                  VerticalBlockMatrix_empty [] [])
  end.

(** The constructor called without its two last arguments, which default to
    [false]. *)
Definition TriangulationFactor_ctor_default (camera : Camera)
    (measured : Point2) (model : SharedNoiseModel) (pointKey : Key) :=
  TriangulationFactor_ctor camera measured model pointKey false false.

(** ** The world the operations run in *)

(** What has been printed on [std::cout], the matrices callers own (the
    targets of [OptionalJacobian] arguments), the factors on the heap, and a
    count of the calls made to the camera's projection. *)
Record World : Type := mkWorld {
  cout : string;
  matrices : gmap N Matrix;
  objects : gmap N TriangulationFactor;
  projections : nat
}.

Definition set_cout (f : string -> string) (w : World) : World :=
  mkWorld (f (cout w)) (matrices w) (objects w) (projections w).
Definition set_matrices (f : gmap N Matrix -> gmap N Matrix) (w : World) : World :=
  mkWorld (cout w) (f (matrices w)) (objects w) (projections w).
Definition set_objects
    (f : gmap N TriangulationFactor -> gmap N TriangulationFactor)
    (w : World) : World :=
  mkWorld (cout w) (matrices w) (f (objects w)) (projections w).
Definition count_projection (w : World) : World :=
  mkWorld (cout w) (matrices w) (objects w) (S (projections w)).

(** [OptionalJacobian<2,3>]: [boost::none], or a reference to a matrix of
    the caller. *)
Definition OptionalJacobian : Type := option loc.

(** [*H = D] when [H] is set, nothing otherwise. *)
Definition OptionalJacobian_assign (H : OptionalJacobian) (D : Matrix)
    : M World unit :=
  match H with
  | Some l => modify (set_matrices (insert l D))
  | None => ret tt
  end.

(** [std::cout << s]. *)
Definition print (s : string) : M World unit :=
  modify (set_cout (fun out => (out ++ s)%string)).

Definition endl : string := String (ascii_of_nat 10) EmptyString.

(** A call of [camera.project] whose derivative goes to [Dpoint]. *)
Definition project (camera : Camera) (point : Point3)
    (Dpoint : Matrix -> M World unit) : M World Point2 :=
  modify count_projection >>
  let* r := lift (Camera_project camera point) in
  Dpoint (snd r) >>
  ret (fst r).

(** Reading and updating the object [this] points to. *)
Definition load (this : loc) : M World TriangulationFactor :=
  fun w =>
    match objects w !! this with
    | Some f => (Returned f, w)
    | None => (Undefined, w)
    end.

Definition update (this : loc) (g : TriangulationFactor -> TriangulationFactor)
    : M World unit :=
  let* f := load this in
  modify (set_objects (insert this (g f))).

(** [new This(f)]: a copy of [f] at an address that was not in use. *)
Definition allocate (f : TriangulationFactor) : M World loc :=
  fun w =>
    let l := fresh (dom (objects w)) in
    (Returned l, set_objects (insert l f) w).

End Factor.

(** The factor-graph framework the class derives from: the virtual
    [NonlinearFactor::active] and the base class's [NoiseModelFactor::equals]
    (keys and noise model), both declared in other files. *)
Class Framework {G : Geometry} : Type := {
  active : TriangulationFactor -> Values -> bool;
  Base_equals : NoiseModelFactor1 -> NonlinearFactor -> double -> bool
}.

Section Operations.

Context {G : Geometry} {F : Framework}.

(** ** [clone] *)

(** A [new This] from the object at [this]: the copy constructor copies
    every member, the scratch members too, into a new object. *)
Definition clone (this : loc) : M World loc :=
  let* self := load this in
  allocate self.

(** ** [equals] *)

(** The default value of [tol]. *)
Definition default_tol : double := 1e-9%float.

Definition equals (self : TriangulationFactor) (p : NonlinearFactor)
    (tol : double) : bool :=
  match dynamic_cast_This p with
  | None => false
  | Some e =>
      Base_equals (Base self) p tol
      && Camera_equals (camera_ self) (camera_ e) tol
      && Point2_equals (measured_ self) (measured_ e) tol
  end.

(** ** [evaluateError] *)

(** The line printed for a point behind the camera. *)
Definition cheirality_message (what : string) (self : TriangulationFactor)
    : string :=
  (what ++ ": Landmark " ++ DefaultKeyFormatter (key self)
     ++ " moved behind camera" ++ endl)%string.

(** [ones(2) * 2.0 * camera_.calibration().fx()]. *)
Definition cheirality_error (self : TriangulationFactor) : Vector :=
  Vector_scale (Vector_scale (ones 2) 2%float) (Camera_fx (camera_ self)).

(** The body of the [catch (CheiralityException& e)] clause. *)
Definition on_cheirality (self : TriangulationFactor) (H2 : OptionalJacobian)
    (what : string) : M World Vector :=
  when (bool_decide (is_Some H2)) (OptionalJacobian_assign H2 Z_2x3) >>
  when (verboseCheirality_ self) (print (cheirality_message what self)) >>
  when (throwCheirality_ self) (throw (CheiralityException what)) >>
  ret (cheirality_error self).

Definition evaluateError (self : TriangulationFactor) (point : Point3)
    (H2 : OptionalJacobian) : M World Vector :=
  try_catch
    (let* pixel := project (camera_ self) point (OptionalJacobian_assign H2) in
     ret (Point2_vector (Point2_sub pixel (measured_ self))))
    (fun e =>
       match e with
       | CheiralityException what => on_cheirality self H2 what
       | _ => throw e
       end).

(** The world [evaluateError] leaves when the projection succeeded with the
    derivative [D]: one more camera call, and [D] in the caller's matrix. *)
Definition after_projection (H2 : OptionalJacobian) (D : Matrix)
    (w : World) : World :=
  snd (OptionalJacobian_assign H2 D (count_projection w)).

(** The world the [catch] clause leaves: one more camera call, a requested
    Jacobian set to zero, and the message printed if the factor is
    verbose. *)
Definition after_cheirality (self : TriangulationFactor)
    (H2 : OptionalJacobian) (what : string) (w : World) : World :=
  let w1 := snd (OptionalJacobian_assign H2 Z_2x3 (count_projection w)) in
  if verboseCheirality_ self
  then set_cout (fun out => (out ++ cheirality_message what self)%string) w1
  else w1.

(** ** [linearize] *)

(** [Ab = VerticalBlockMatrix(dimensions, 2, true); A.resize(2,3);
    b.resize(2);] with [dimensions] one entry equal to 3.  The entries, which
    C++ leaves uninitialised, are zero here. *)
Definition allocate_scratch (f : TriangulationFactor) : TriangulationFactor :=
  set_b (replicate 2 0%float)
    (set_A (Matrix_Zero 2 3)
       (set_Ab (VerticalBlockMatrix_new (replicate 1 3) 2 true) f)).

(** [Ab(i) = m], which is undefined for a block the matrix does not have. *)
Definition assign_block (this : loc) (i : nat)
    (m : TriangulationFactor -> Matrix) : M World unit :=
  let* f := load this in
  if bool_decide (i < length (vbm_blocks (Ab f)))
  then update this
         (set_Ab (mkVBM (vbm_rows (Ab f)) (<[i := m f]> (vbm_blocks (Ab f)))))
  else undefined.

(** [noiseModel_->WhitenSystem(A, b)] on the scratch members. *)
Definition whiten_scratch (model : NoiseModel) (f : TriangulationFactor)
    : TriangulationFactor :=
  let Ab' := WhitenSystem model (A f) (b f) in
  set_b (snd Ab') (set_A (fst Ab') f).

Definition linearize (this : loc) (x : Values)
    : M World (option JacobianFactor) :=
  let* self := load this in
  if negb (active self x) then ret None else
  when (Nat.eqb (vbm_rows (Ab self)) 0) (update this allocate_scratch) >>
  let* point := lift (Values_at x (key self)) in
  let* pixel := project (camera_ self) point (fun D => update this (set_A D)) in
  update this
    (set_b (Vector_opp (Point2_vector (Point2_sub pixel (measured_ self))))) >>
  match noiseModel_ (Base self) with
  | Some model => update this (whiten_scratch model)
  | None => ret tt
  end >>
  assign_block this 0 A >>
  assign_block this 1 (fun f => column (b f)) >>
  let* self' := load this in
  ret (Some (mkJacobianFactor (keys_ self') (Ab self'))).

(** The scratch members as the class leaves them: never allocated, or
    allocated with two rows and the two blocks of [A] and [b]. *)
Definition scratch_ok (f : TriangulationFactor) : bool :=
  Nat.eqb (vbm_rows (Ab f)) 0
  || (Nat.eqb (vbm_rows (Ab f)) 2 && Nat.eqb (length (vbm_blocks (Ab f))) 2).

(** An operation that leaves every object other than [this] as it was. *)
Definition preserves_others {T : Type} (this : loc) (m : M World T) : Prop :=
  forall (w : World) (l : loc),
    l <> this -> objects (snd (m w)) !! l = objects w !! l.

(** An operation after which the object at [this], if it had scratch
    members of that kind, still has. *)
Definition keeps_scratch_ok {T : Type} (this : loc) (m : M World T) : Prop :=
  forall w : World,
    (forall f, objects w !! this = Some f -> scratch_ok f = true) ->
    forall f, objects (snd (m w)) !! this = Some f -> scratch_ok f = true.

End Operations.

(** ** [linearize] seen from its object

    What a call of [linearize] does, told for the one object it runs on: how
    the call ends, the object it leaves, and how many times it called the
    camera. *)
Section Local.

Context {G : Geometry} {F : Framework}.

(** The two block assignments [Ab(0) = A; Ab(1) = b;] and the construction of
    the Jacobian factor. *)
Definition fill_blocks (s : TriangulationFactor)
    : Outcome (option JacobianFactor) * TriangulationFactor :=
  if bool_decide (0 < length (vbm_blocks (Ab s))) then
    let s4 := set_Ab (mkVBM (vbm_rows (Ab s)) (<[0 := A s]> (vbm_blocks (Ab s)))) s in
    if bool_decide (1 < length (vbm_blocks (Ab s4))) then
      let s5 := set_Ab (mkVBM (vbm_rows (Ab s4))
                          (<[1 := column (b s4)]> (vbm_blocks (Ab s4)))) s4 in
      (Returned (Some (mkJacobianFactor (keys_ s5) (Ab s5))), s5)
    else (Undefined, s4)
  else (Undefined, s).

Definition linearize_object (self : TriangulationFactor) (x : Values)
    : Outcome (option JacobianFactor) * TriangulationFactor * nat :=
  if negb (active self x) then (Returned None, self, 0) else
  let s1 := if Nat.eqb (vbm_rows (Ab self)) 0 then allocate_scratch self else self in
  match Values_at x (key self) with
  | Returned point =>
      match Camera_project (camera_ self) point with
      | Returned r =>
          let s2 :=
            set_b (Vector_opp (Point2_vector (Point2_sub (fst r) (measured_ self))))
              (set_A (snd r) s1) in
          let s3 := match noiseModel_ (Base self) with
                    | Some model => whiten_scratch model s2
                    | None => s2
                    end in
          (fill_blocks s3, 1)
      | Thrown e => (Thrown e, s1, 1)
      | Undefined => (Undefined, s1, 1)
      end
  | Thrown e => (Thrown e, s1, 0)
  | Undefined => (Undefined, s1, 0)
  end.

(** The world in which the object at [this] has become [f] and the camera
    has been called [calls] more times. *)
Definition world_after (this : loc) (f : TriangulationFactor) (calls : nat)
    (w : World) : World :=
  mkWorld (cout w) (matrices w) (<[this := f]> (objects w)) (calls + projections w).

(** An optimizer's use of one factor: [linearize] at one values store after
    the other, going on whatever way a call ends. *)
Fixpoint linearize_all (this : loc) (xs : list (gmap N Point3)) (w : World)
    : World :=
  match xs with
  | [] => w
  | x :: xs' => linearize_all this xs' (snd (linearize this x w))
  end.

(** The members that are [const] in the source. *)
Definition same_const (f g : TriangulationFactor) : Prop :=
  Base f = Base g /\ camera_ f = camera_ g /\ measured_ f = measured_ g
  /\ throwCheirality_ f = throwCheirality_ g
  /\ verboseCheirality_ f = verboseCheirality_ g.

(** The factor with its [verboseCheirality_] flag replaced. *)
Definition with_verbose (v : bool) (f : TriangulationFactor) : TriangulationFactor :=
  mkFactor (Base f) (camera_ f) (measured_ f) (throwCheirality_ f) v
    (Ab f) (A f) (b f).

(** A call of [linearize] on [self] that ended with [o] leaves scratch
    members every entry of which has a value in the program too: they were
    allocated before the call, or the call returned (with a factor, all
    entries written, or with the null pointer, nothing touched).  What is
    left out is a call that allocates and then throws, which leaves
    uninitialised entries behind. *)
Definition scratch_determined (self : TriangulationFactor)
    (o : Outcome (option JacobianFactor)) : Prop :=
  vbm_rows (Ab self) <> 0 \/ exists v, o = Returned v.

End Local.

(** ** A concrete setting

    The scenario of the library's own description of this factor: a camera at
    the origin that looks down the z axis, with a focal length and the
    principal point at (0,0), so that a point (x, y, z) in front of it is seen
    at the pixel (f x / z, f y / z).  The theorems below are evaluated in
    it. *)
Module Scenario.

(** A camera, given by its focal length. *)
Record Pinhole : Type := mkPinhole { focal : double }.

(** An isotropic noise model: a dimension and a standard deviation. *)
Record Isotropic : Type := mkIsotropic { iso_dim : nat; iso_sigma : double }.

(** A factor of another class: a prior on one key. *)
Record Prior : Type := mkPrior { prior_key : N }.

Definition pinhole_project (c : Pinhole) (p : Point3)
    : Outcome (Point2 * Matrix) :=
  if (p3z p <=? 0)%float
  then Thrown (CheiralityException "CheiralityException")
  else
    let f := focal c in
    let z := p3z p in
    Returned
      (mkPoint2 (f * p3x p / z)%float (f * p3y p / z)%float,
       [ [ (f / z)%float; 0%float; (- (f * p3x p / (z * z)))%float ];
         [ 0%float; (f / z)%float; (- (f * p3y p / (z * z)))%float ] ]).

Definition close (u v tol : double) : bool := (abs (u - v) <? tol)%float.

Definition isotropic_whiten (n : Isotropic) (A0 : Matrix) (b0 : Vector)
    : Matrix * Vector :=
  (map (map (fun c => (c / iso_sigma n)%float)) A0,
   map (fun c => (c / iso_sigma n)%float) b0).

#[export] Instance geometry : Geometry := {|
  Camera := Pinhole;
  NoiseModel := Isotropic;
  ForeignFactor := Prior;
  Camera_project := pinhole_project;
  Camera_fx := focal;
  Camera_equals := fun c d tol => close (focal c) (focal d) tol;
  Point2_equals := fun p q tol =>
    close (p2x p) (p2x q) tol && close (p2y p) (p2y q) tol;
  NoiseModel_dim := iso_dim;
  WhitenSystem := isotropic_whiten;
  DefaultKeyFormatter := fun k => if N.eqb k 0 then "l0" else "l"
|}.

Definition model_equals (m n : SharedNoiseModel) (tol : double) : bool :=
  match m, n with
  | Some m', Some n' =>
      Nat.eqb (iso_dim m') (iso_dim n')
      && close (iso_sigma m') (iso_sigma n') tol
  | None, None => true
  | _, _ => false
  end.

(** Keys and noise models compared; a prior has no noise model. *)
Definition base_equals (s : NoiseModelFactor1) (p : NonlinearFactor)
    (tol : double) : bool :=
  match p with
  | OfThis g =>
      N.eqb (key_ s) (key g) && model_equals (noiseModel_ s) (noiseModel_ (Base g)) tol
  | OfForeign o =>
      N.eqb (key_ s) (prior_key o) && model_equals (noiseModel_ s) None tol
  end.

(** The framework as the library has it: every factor is active. *)
Definition framework : Framework := {|
  active := fun _ _ => true;
  Base_equals := base_equals
|}.

(** A framework whose activity predicate switches every factor off. *)
Definition framework_off : Framework := {|
  active := fun _ _ => false;
  Base_equals := base_equals
|}.

(** Unit focal length, measurement (0,0), key 0, no noise model, the flags
    at their defaults, scratch members not yet allocated. *)
Definition factor0 : TriangulationFactor :=
  mkFactor (mkBase None 0%N) (mkPinhole 1%float) (mkPoint2 0%float 0%float)
    false false VerticalBlockMatrix_empty [] [].

(** The same with an isotropic noise model of standard deviation 2. *)
Definition factor_noisy : TriangulationFactor :=
  mkFactor (mkBase (Some (mkIsotropic 2 2%float)) 0%N) (mkPinhole 1%float)
    (mkPoint2 0%float 0%float) false false VerticalBlockMatrix_empty [] [].

(** The same as [factor0] with both flags set. *)
Definition factor_strict : TriangulationFactor :=
  mkFactor (mkBase None 0%N) (mkPinhole 1%float) (mkPoint2 0%float 0%float)
    true true VerticalBlockMatrix_empty [] [].

(** A camera whose focal length is 2^1023, the largest power of two a
    [double] holds. *)
Definition factor_huge : TriangulationFactor :=
  mkFactor (mkBase None 0%N) (mkPinhole 0x1p1023%float)
    (mkPoint2 0%float 0%float) false false VerticalBlockMatrix_empty [] [].

Definition in_front : Point3 := mkPoint3 1%float 1%float 5%float.
Definition behind : Point3 := mkPoint3 0%float 0%float (-5)%float.

(** What the unit camera sees of [in_front]: the pixel (1/5, 1/5) and the
    derivative of the projection there. *)
Definition pixel_in_front : Point2 := mkPoint2 (1 / 5)%float (1 / 5)%float.
Definition D_in_front : Matrix :=
  [ [ (1 / 5)%float; 0%float; (- (1 / 25))%float ];
    [ 0%float; (1 / 5)%float; (- (1 / 25))%float ] ].

(** A world with nothing printed, the caller's matrix 7 holding a 1x1
    matrix, and one factor at address 1. *)
Definition world_of (f : TriangulationFactor) : World :=
  mkWorld EmptyString {[ 7%N := [[1%float]] ]} {[ 1%N := f ]} 0.

(** The message of the camera's exception, and the world that holds
    [factor0]. *)
Definition what0 : string := "CheiralityException".
Definition w0 : World := world_of factor0.

End Scenario.

(** ** A camera that checks its input

    The same setting with a projection that refuses a point whose depth is
    not a number, with an exception of another class. *)
Module Checked.

Import Scenario.

Definition checked_project (c : Pinhole) (p : Point3)
    : Outcome (Point2 * Matrix) :=
  if PrimFloat.is_nan (p3z p)
  then Thrown (other_exception "depth is not a number")
  else pinhole_project c p.

Definition geometry_checked : Geometry := {|
  Camera := Pinhole;
  NoiseModel := Isotropic;
  ForeignFactor := Prior;
  Camera_project := checked_project;
  Camera_fx := focal;
  Camera_equals := fun c d tol => close (focal c) (focal d) tol;
  Point2_equals := fun p q tol =>
    close (p2x p) (p2x q) tol && close (p2y p) (p2y q) tol;
  NoiseModel_dim := iso_dim;
  WhitenSystem := isotropic_whiten;
  DefaultKeyFormatter := fun k => if N.eqb k 0 then "l0" else "l"
|}.

(** Unit focal length, measurement (0,0), key 0, both flags set. *)
Definition factor_checked : @TriangulationFactor geometry_checked :=
  mkFactor (G := geometry_checked) (mkBase (G := geometry_checked) None 0%N)
    (mkPinhole 1%float) (mkPoint2 0%float 0%float)
    true true VerticalBlockMatrix_empty [] [].

Definition no_depth : Point3 := mkPoint3 0%float 0%float nan.

Definition world_checked : @World geometry_checked :=
  mkWorld (G := geometry_checked) EmptyString {[ 7%N := [[1%float]] ]} ∅ 0.

End Checked.

(** ** Two factors in one world *)
Module TwoFactors.

Import Scenario.

(** The factor that prints and returns: [verboseCheirality_] set,
    [throwCheirality_] not. *)
Definition factor_verbose : TriangulationFactor :=
  mkFactor (mkBase None 0%N) (mkPinhole 1%float) (mkPoint2 0%float 0%float)
    false true VerticalBlockMatrix_empty [] [].

(** [factor0] at address 1 and [factor_noisy] at address 2. *)
Definition world_pair : World :=
  mkWorld EmptyString ∅ {[ 1%N := factor0; 2%N := factor_noisy ]} 0.

(** Values that hold the point in front of the camera, and values that hold
    the point behind it. *)
Definition values_front : gmap N Point3 := {[ 0%N := in_front ]}.
Definition values_behind : gmap N Point3 := {[ 0%N := behind ]}.

(** [factor0] again, at address 5 of a world in which other things have
    happened. *)
Definition world_moved : World :=
  mkWorld "earlier output" {[ 7%N := [[1%float]] ]} {[ 5%N := factor0 ]} 3.

(** Three values stores an optimizer might go through: the point in front,
    no point at all, the point behind. *)
Definition iterations : list (gmap N Point3) :=
  [values_front; ∅; values_behind].

(** A factor whose measurement has a coordinate that is not a number; the
    constructor takes it as any other. *)
Definition factor_nan : TriangulationFactor :=
  mkFactor (mkBase None 0%N) (mkPinhole 1%float) (mkPoint2 nan 0%float)
    false false VerticalBlockMatrix_empty [] [].

End TwoFactors.

(** * Properties *)

(** ** Running the monad *)

Section Run.

Context {S T U : Type}.

Lemma bind_Returned (m : M S T) (k : T -> M S U) s v s' :
  m s = (Returned v, s') -> bind m k s = k v s'.
Proof. intros E. unfold bind. now rewrite E. Qed.

Lemma bind_Thrown (m : M S T) (k : T -> M S U) s e s' :
  m s = (Thrown e, s') -> bind m k s = (Thrown e, s').
Proof. intros E. unfold bind. now rewrite E. Qed.

Lemma bind_Undefined (m : M S T) (k : T -> M S U) s s' :
  m s = (Undefined, s') -> bind m k s = (Undefined, s').
Proof. intros E. unfold bind. now rewrite E. Qed.

Lemma try_catch_Returned (m : M S T) h s v s' :
  m s = (Returned v, s') -> try_catch m h s = (Returned v, s').
Proof. intros E. unfold try_catch. now rewrite E. Qed.

Lemma try_catch_Thrown (m : M S T) h s e s' :
  m s = (Thrown e, s') -> try_catch m h s = h e s'.
Proof. intros E. unfold try_catch. now rewrite E. Qed.

End Run.

Section Properties.

Context {G : Geometry} {F : Framework}.

Implicit Types (self : TriangulationFactor) (w : World) (this : N).
Implicit Types (point : Point3) (x : gmap N Point3).

(** ** The camera call *)

Lemma project_Returned camera point Dpoint w pixel D :
  Camera_project camera point = Returned (pixel, D) ->
  project camera point Dpoint w
  = (Dpoint D >> ret pixel) (count_projection w).
Proof. intros E. unfold project, bind at 1 2, modify, lift. now rewrite E. Qed.

Lemma project_Thrown camera point Dpoint w e :
  Camera_project camera point = Thrown e ->
  project camera point Dpoint w = (Thrown e, count_projection w).
Proof. intros E. unfold project, bind, modify, lift. now rewrite E. Qed.

(** What an [OptionalJacobian] argument refers to after it was assigned. *)
Lemma OptionalJacobian_assign_read (H2 : OptionalJacobian) D w l :
  H2 = Some l ->
  matrices (snd (OptionalJacobian_assign H2 D w)) !! l = Some D.
Proof. intros ->. simpl. apply lookup_insert_eq. Qed.

Lemma OptionalJacobian_assign_Returned (H2 : OptionalJacobian) D w :
  fst (OptionalJacobian_assign H2 D w) = Returned tt.
Proof. now destruct H2. Qed.

Lemma OptionalJacobian_assign_frame (H2 : OptionalJacobian) D w :
  let w' := snd (OptionalJacobian_assign H2 D w) in
  cout w' = cout w /\ objects w' = objects w /\ projections w' = projections w.
Proof. now destruct H2. Qed.

(** ** [evaluateError] on a point the camera sees *)

(** C2.  When the camera projects [point] to [pixel] with derivative [D],
    [evaluateError] returns the two components of [pixel - measured_], and a
    Jacobian that was asked for holds [D] itself afterwards; nothing is
    printed. *)
Theorem evaluateError_projects self point (H2 : OptionalJacobian) w pixel D :
  Camera_project (camera_ self) point = Returned (pixel, D) ->
  let r := evaluateError self point H2 w in
  fst r = Returned [ (p2x pixel - p2x (measured_ self))%float;
                     (p2y pixel - p2y (measured_ self))%float ]
  /\ snd r = after_projection H2 D w
  /\ (forall l, H2 = Some l -> matrices (snd r) !! l = Some D)
  /\ cout (snd r) = cout w.
Proof.
  intros E r.
  assert (R : r = (Returned (Point2_vector (Point2_sub pixel (measured_ self))),
                   after_projection H2 D w)).
  { subst r. unfold evaluateError.
    apply try_catch_Returned.
    erewrite bind_Returned; [reflexivity|].
    rewrite (project_Returned _ _ _ _ _ _ E).
    unfold after_projection.
    destruct H2; reflexivity. }
  rewrite R. cbn [fst snd]. repeat split.
  - intros l ->. unfold after_projection. now apply OptionalJacobian_assign_read.
  - unfold after_projection. now destruct H2.
Qed.

(** ** [evaluateError] on a point behind the camera *)

Lemma on_cheirality_run self (H2 : OptionalJacobian) what w :
  on_cheirality self H2 what w
  = (if throwCheirality_ self
     then Thrown (CheiralityException what)
     else Returned (cheirality_error self),
     snd (when (verboseCheirality_ self)
            (print (cheirality_message what self))
            (snd (OptionalJacobian_assign H2 Z_2x3 w)))).
Proof.
  unfold on_cheirality.
  destruct H2 as [l|], (verboseCheirality_ self), (throwCheirality_ self);
    reflexivity.
Qed.

Lemma evaluateError_cheirality self point (H2 : OptionalJacobian) w what :
  Camera_project (camera_ self) point = Thrown (CheiralityException what) ->
  evaluateError self point H2 w
  = (if throwCheirality_ self
     then Thrown (CheiralityException what)
     else Returned (cheirality_error self),
     after_cheirality self H2 what w).
Proof.
  intros E. unfold evaluateError.
  erewrite try_catch_Thrown;
    [|erewrite bind_Thrown; [reflexivity|apply project_Thrown, E]].
  cbv beta iota. rewrite on_cheirality_run. unfold after_cheirality.
  now destruct (verboseCheirality_ self).
Qed.

Lemma after_cheirality_jacobian self (H2 : OptionalJacobian) what w l :
  H2 = Some l -> matrices (after_cheirality self H2 what w) !! l = Some Z_2x3.
Proof.
  intros ->. unfold after_cheirality.
  destruct (verboseCheirality_ self); apply lookup_insert_eq.
Qed.

Lemma cheirality_error_twice_fx self :
  cheirality_error self
  = [ (2 * Camera_fx (camera_ self))%float; (2 * Camera_fx (camera_ self))%float ].
Proof. reflexivity. Qed.

(** With the flags at their defaults [evaluateError] returns a value for a
    point behind the camera. *)
Lemma evaluateError_default_returns self point (H2 : OptionalJacobian) w what :
  Camera_project (camera_ self) point = Thrown (CheiralityException what) ->
  throwCheirality_ self = false ->
  fst (evaluateError self point H2 w) = Returned (cheirality_error self).
Proof.
  intros E T. rewrite (evaluateError_cheirality _ _ _ _ _ E). now rewrite T.
Qed.

(** C3, as amended.  For a point the camera reports behind it, with both
    flags off, [evaluateError] returns the vector whose two components are
    2.0 times the focal length, a vector that is finite exactly when that
    product is a finite number; a Jacobian that was asked for is the zero
    2x3 matrix afterwards, and nothing is printed. *)
Theorem evaluateError_behind_camera self point (H2 : OptionalJacobian) w what :
  Camera_project (camera_ self) point = Thrown (CheiralityException what) ->
  throwCheirality_ self = false ->
  verboseCheirality_ self = false ->
  let r := evaluateError self point H2 w in
  let big := (2 * Camera_fx (camera_ self))%float in
  fst r = Returned [big; big]
  /\ Vector_finite [big; big] = PrimFloat.is_finite big
  /\ (forall l, H2 = Some l ->
        matrices (snd r) !! l
        = Some [ [0%float; 0%float; 0%float]; [0%float; 0%float; 0%float] ])
  /\ cout (snd r) = cout w.
Proof.
  intros E T V r big. subst r.
  rewrite (evaluateError_cheirality _ _ _ _ _ E), T. cbn [fst snd].
  split; [now rewrite cheirality_error_twice_fx|].
  split; [unfold Vector_finite; cbn [forallb];
          now destruct (PrimFloat.is_finite big)|].
  split.
  - intros l L. now apply after_cheirality_jacobian.
  - unfold after_cheirality. rewrite V. now destruct H2.
Qed.

(** C4.  With [throwCheirality_] set, [evaluateError] on a point the camera
    reports behind it ends with that [CheiralityException] in flight, and by
    then a Jacobian that was asked for has been set to zero and, when
    [verboseCheirality_] is set too, the line that names the landmark's key
    has been printed. *)
Theorem evaluateError_rethrows self point (H2 : OptionalJacobian) w what :
  Camera_project (camera_ self) point = Thrown (CheiralityException what) ->
  throwCheirality_ self = true ->
  let r := evaluateError self point H2 w in
  fst r = Thrown (CheiralityException what)
  /\ (forall l, H2 = Some l -> matrices (snd r) !! l = Some Z_2x3)
  /\ cout (snd r)
     = (if verboseCheirality_ self
        then cout w ++ (what ++ ": Landmark " ++ DefaultKeyFormatter (key self)
                          ++ " moved behind camera" ++ endl)
        else cout w)%string.
Proof.
  intros E T r. subst r.
  rewrite (evaluateError_cheirality _ _ _ _ _ E), T. cbn [fst snd].
  split; [reflexivity|]. split.
  - intros l L. now apply after_cheirality_jacobian.
  - unfold after_cheirality.
    destruct (verboseCheirality_ self), H2; reflexivity.
Qed.

(** ** The constructor *)

(** C8.  The constructor throws [std::invalid_argument] exactly when it is
    given a noise model whose dimension is not 2; with no noise model or one
    of dimension 2 it returns the factor made of its arguments; and when it
    throws there is no factor. *)
Theorem TriangulationFactor_ctor_checks_dimension
    camera measured (model : SharedNoiseModel) (pointKey : N)
    (throwFlag verboseFlag : bool) :
  let r := TriangulationFactor_ctor camera measured model pointKey
             throwFlag verboseFlag in
  ((exists what, r = Thrown (invalid_argument what))
     <-> (exists m, model = Some m /\ NoiseModel_dim m <> 2))
  /\ ((model = None \/ exists m, model = Some m /\ NoiseModel_dim m = 2)
      <-> r = Returned (mkFactor (mkBase model pointKey) camera measured
                          throwFlag verboseFlag VerticalBlockMatrix_empty [] []))
  /\ (forall e, r = Thrown e ->
        e = invalid_argument dimension_message /\ forall f, r <> Returned f)
  /\ r <> Undefined.
Proof.
  intros r. subst r. unfold TriangulationFactor_ctor.
  destruct model as [m|];
    [destruct (Nat.eqb_spec (NoiseModel_dim m) 2) as [E|E]; cbn [negb]|].
  all: (split; [split|split; [split|split]]).
  all: try solve
    [ discriminate
    | intros [what W]; discriminate W
    | intros (m' & W & N'); first [discriminate W | injection W as <-; contradiction]
    | intros [W|(m' & W & N')];
        first [discriminate W | injection W as <-; contradiction | reflexivity]
    | intros e W; first [discriminate W | injection W as <-; split; [reflexivity|discriminate]]
    | intros _; eauto ].
Qed.

(** ** [equals] *)

(** C10.  [equals] is false, whatever the tolerance, for an object that the
    dynamic cast to this class rejects, also when the base class would find
    its keys and noise model equal. *)
Theorem equals_rejects_other_types self (p : NonlinearFactor) (tol : double) :
  dynamic_cast_This p = None -> equals self p tol = false.
Proof. intros E. unfold equals. now rewrite E. Qed.

(** ** Steps of [linearize] *)

Lemma objects_insert this (f : TriangulationFactor) w :
  objects (set_objects (insert this f) w) !! this = Some f.
Proof. apply lookup_insert_eq. Qed.

Lemma load_live this w f :
  objects w !! this = Some f -> load this w = (Returned f, w).
Proof. intros E. unfold load. now rewrite E. Qed.

Lemma bind_load {T} this (k : TriangulationFactor -> M World T) w f :
  objects w !! this = Some f -> (let* s := load this in k s) w = k f w.
Proof. intros E. now apply bind_Returned, load_live. Qed.

Lemma update_live this g w f :
  objects w !! this = Some f ->
  update this g w = (Returned tt, set_objects (insert this (g f)) w).
Proof. intros E. unfold update. now rewrite (bind_load _ _ _ _ E). Qed.

Lemma bind_update {T} this g (k : M World T) w f :
  objects w !! this = Some f ->
  (update this g >> k) w = k (set_objects (insert this (g f)) w).
Proof. intros E. erewrite bind_Returned; [reflexivity|]. now apply update_live. Qed.

Lemma bind_assign_block {T} this i m (k : M World T) w f :
  objects w !! this = Some f ->
  i < length (vbm_blocks (Ab f)) ->
  (assign_block this i m >> k) w
  = k (set_objects
         (insert this
            (set_Ab (mkVBM (vbm_rows (Ab f)) (<[i := m f]> (vbm_blocks (Ab f)))) f))
         w).
Proof.
  intros E L. erewrite bind_Returned; [reflexivity|]. unfold assign_block.
  rewrite (bind_load _ _ _ _ E), bool_decide_true by exact L.
  now apply update_live.
Qed.

Lemma bind_project_update {T} camera point this g (k : Point2 -> M World T)
    w pixel D f :
  Camera_project camera point = Returned (pixel, D) ->
  objects w !! this = Some f ->
  (let* px := project camera point (fun D' => update this (g D')) in k px) w
  = k pixel (set_objects (insert this (g D f)) (count_projection w)).
Proof.
  intros E L. erewrite bind_Returned; [reflexivity|].
  rewrite (project_Returned _ _ _ _ _ _ E).
  now rewrite (bind_update _ _ _ _ f) by exact L.
Qed.

(** The part of [linearize] that follows the allocation of the scratch
    members, run on scratch members that have their two blocks. *)
Lemma linearize_fill this x self w1 self1 point pixel D
    (k : M World (option JacobianFactor)) :
  k = (let* point := lift (Values_at x (key self)) in
       let* pixel := project (camera_ self) point
                       (fun D => update this (set_A D)) in
       update this
         (set_b (Vector_opp (Point2_vector (Point2_sub pixel (measured_ self))))) >>
       match noiseModel_ (Base self) with
       | Some model => update this (whiten_scratch model)
       | None => ret tt
       end >>
       assign_block this 0 A >>
       assign_block this 1 (fun f => column (b f)) >>
       let* self' := load this in
       ret (Some (mkJacobianFactor (keys_ self') (Ab self')))) ->
  objects w1 !! this = Some self1 ->
  length (vbm_blocks (Ab self1)) = 2 ->
  x !! key self = Some point ->
  Camera_project (camera_ self) point = Returned (pixel, D) ->
  let b0 := Vector_opp (Point2_vector (Point2_sub pixel (measured_ self))) in
  let Ab' := match noiseModel_ (Base self) with
             | Some model => WhitenSystem model D b0
             | None => (D, b0)
             end in
  let final :=
    mkFactor (Base self1) (camera_ self1) (measured_ self1)
      (throwCheirality_ self1) (verboseCheirality_ self1)
      (mkVBM (vbm_rows (Ab self1)) [fst Ab'; column (snd Ab')])
      (fst Ab') (snd Ab') in
  let r := k w1 in
  fst r = Returned (Some (mkJacobianFactor [key self1]
                            (mkVBM (vbm_rows (Ab self1)) [fst Ab'; column (snd Ab')])))
  /\ objects (snd r) !! this = Some final
  /\ projections (snd r) = S (projections w1)
  /\ cout (snd r) = cout w1
  /\ matrices (snd r) = matrices w1.
Proof.
  intros -> L B X E b0 Ab' final r. subst r.
  destruct (vbm_blocks (Ab self1)) as [|B0 [|B1 [|]]] eqn:Bs; try discriminate B.
  unfold Values_at. rewrite X.
  erewrite bind_Returned by reflexivity.
  erewrite bind_project_update by eassumption.
  erewrite bind_update by apply objects_insert.
  destruct (noiseModel_ (Base self)) as [model|].
  - erewrite bind_update by apply objects_insert.
    erewrite bind_assign_block
      by (first [apply objects_insert | cbn [Ab set_b set_A set_Ab whiten_scratch]; rewrite Bs; cbn; lia]).
    erewrite bind_assign_block
      by (first [apply objects_insert | cbn [Ab set_b set_A set_Ab whiten_scratch vbm_blocks]; rewrite Bs; cbn; lia]).
    erewrite bind_load by apply objects_insert.
    cbn [Ab set_b set_A set_Ab whiten_scratch vbm_blocks vbm_rows A b
         Base camera_ measured_ throwCheirality_ verboseCheirality_ keys_ key].
    rewrite Bs. repeat split. apply objects_insert.
  - erewrite bind_Returned by reflexivity.
    erewrite bind_assign_block
      by (first [apply objects_insert | cbn [Ab set_b set_A set_Ab]; rewrite Bs; cbn; lia]).
    erewrite bind_assign_block
      by (first [apply objects_insert | cbn [Ab set_b set_A set_Ab vbm_blocks]; rewrite Bs; cbn; lia]).
    erewrite bind_load by apply objects_insert.
    cbn [Ab set_b set_A set_Ab vbm_blocks vbm_rows A b
         Base camera_ measured_ throwCheirality_ verboseCheirality_ keys_ key].
    rewrite Bs. repeat split. apply objects_insert.
Qed.

(** [linearize] up to the lookup of the point: the factor is active, and the
    scratch members are allocated if they were not. *)
Lemma linearize_prefix this x self w :
  objects w !! this = Some self ->
  active self x = true ->
  exists w1 self1,
    objects w1 !! this = Some self1
    /\ self1 = (if Nat.eqb (vbm_rows (Ab self)) 0 then allocate_scratch self else self)
    /\ cout w1 = cout w /\ matrices w1 = matrices w
    /\ projections w1 = projections w
    /\ linearize this x w
       = (let* point := lift (Values_at x (key self)) in
          let* pixel := project (camera_ self) point
                          (fun D => update this (set_A D)) in
          update this
            (set_b (Vector_opp (Point2_vector (Point2_sub pixel (measured_ self))))) >>
          match noiseModel_ (Base self) with
          | Some model => update this (whiten_scratch model)
          | None => ret tt
          end >>
          assign_block this 0 A >>
          assign_block this 1 (fun f => column (b f)) >>
          let* self' := load this in
          ret (Some (mkJacobianFactor (keys_ self') (Ab self')))) w1.
Proof.
  intros L Act. unfold linearize.
  rewrite (bind_load _ _ _ _ L), Act. cbn [negb].
  destruct (Nat.eqb (vbm_rows (Ab self)) 0); cbn [when].
  - exists (set_objects (insert this (allocate_scratch self)) w), (allocate_scratch self).
    rewrite (bind_update _ _ _ _ _ L).
    repeat split. apply objects_insert.
  - exists w, self. erewrite bind_Returned by reflexivity. now repeat split.
Qed.

(** C5.  For an active factor whose key the values hold at a point the
    camera projects, [linearize] calls the projection once, takes
    [b = -(pixel - measured_)] and [A] the derivative of the projection,
    whitens the two exactly when there is a noise model, and returns the
    Jacobian factor on the factor's one key whose blocks are that [A] and
    that [b]; the same [A] and [b] stay in the scratch members. *)
Theorem linearize_builds_factor this x self w point pixel D :
  objects w !! this = Some self ->
  scratch_ok self = true ->
  active self x = true ->
  x !! key self = Some point ->
  Camera_project (camera_ self) point = Returned (pixel, D) ->
  let b0 := Vector_opp (Point2_vector (Point2_sub pixel (measured_ self))) in
  let Ab' := match noiseModel_ (Base self) with
             | Some model => WhitenSystem model D b0
             | None => (D, b0)
             end in
  let r := linearize this x w in
  fst r = Returned (Some (mkJacobianFactor [key self]
                            (mkVBM 2 [fst Ab'; column (snd Ab')])))
  /\ objects (snd r) !! this
     = Some (mkFactor (Base self) (camera_ self) (measured_ self)
               (throwCheirality_ self) (verboseCheirality_ self)
               (mkVBM 2 [fst Ab'; column (snd Ab')]) (fst Ab') (snd Ab'))
  /\ projections (snd r) = S (projections w)
  /\ cout (snd r) = cout w
  /\ matrices (snd r) = matrices w.
Proof.
  intros L Ok Act X E b0 Ab' r. subst r.
  destruct (linearize_prefix _ x _ _ L Act)
    as (w1 & self1 & L1 & S1 & C1 & M1 & P1 & ->).
  assert (Shape : vbm_rows (Ab self1) = 2 /\ length (vbm_blocks (Ab self1)) = 2
                  /\ Base self1 = Base self /\ camera_ self1 = camera_ self
                  /\ measured_ self1 = measured_ self
                  /\ throwCheirality_ self1 = throwCheirality_ self
                  /\ verboseCheirality_ self1 = verboseCheirality_ self).
  { subst self1. unfold scratch_ok in Ok.
    destruct (Nat.eqb (vbm_rows (Ab self)) 0); [now repeat split|].
    cbn [orb] in Ok. apply andb_prop in Ok as [R Bl].
    apply Nat.eqb_eq in R, Bl. now repeat split. }
  destruct Shape as (R & Bl & EB & EC & EM & ET & EV).
  pose proof (linearize_fill this x self w1 self1 point pixel D _ eq_refl
                L1 Bl X E) as Fill.
  cbv zeta in Fill. fold b0 in Fill. fold Ab' in Fill.
  rewrite R, EB, EC, EM, ET, EV, P1, C1, M1 in Fill.
  unfold key in Fill at 2. rewrite EB in Fill. exact Fill.
Qed.

(** C6.  For values on which the factor is not active, [linearize] returns
    the null pointer and leaves the world as it was: no lookup, no camera
    call, no scratch member written. *)
Theorem linearize_inactive this x self w :
  objects w !! this = Some self ->
  active self x = false ->
  linearize this x w = (Returned None, w).
Proof.
  intros L Act. unfold linearize.
  now rewrite (bind_load _ _ _ _ L), Act.
Qed.

(** C7, as amended.  For an active factor and values that do not hold its
    key, [linearize] ends with the exception of the lookup in flight, the
    one [Values_at] raised, and the camera has not been called. *)
Theorem linearize_absent_key this x self w :
  objects w !! this = Some self ->
  active self x = true ->
  x !! key self = None ->
  let r := linearize this x w in
  Values_at x (key self) = Thrown (ValuesKeyDoesNotExist (key self))
  /\ fst r = Thrown (ValuesKeyDoesNotExist (key self))
  /\ projections (snd r) = projections w
  /\ cout (snd r) = cout w.
Proof.
  intros L Act X r. subst r.
  destruct (linearize_prefix _ x _ _ L Act)
    as (w1 & self1 & L1 & S1 & C1 & M1 & P1 & ->).
  assert (V : Values_at x (key self) = Thrown (ValuesKeyDoesNotExist (key self)))
    by (unfold Values_at; now rewrite X).
  split; [exact V|].
  erewrite bind_Thrown by (unfold lift; rewrite V; reflexivity).
  now repeat split.
Qed.

(** Whatever the flags, an exception of the projection leaves [linearize]
    as it is: nothing in [linearize] catches it. *)
Lemma linearize_projection_throws this x self w point e :
  objects w !! this = Some self ->
  active self x = true ->
  x !! key self = Some point ->
  Camera_project (camera_ self) point = Thrown e ->
  fst (linearize this x w) = Thrown e.
Proof.
  intros L Act X E.
  destruct (linearize_prefix _ x _ _ L Act)
    as (w1 & self1 & L1 & S1 & C1 & M1 & P1 & ->).
  unfold Values_at. rewrite X.
  erewrite bind_Returned by reflexivity.
  erewrite bind_Thrown by (apply project_Thrown, E).
  reflexivity.
Qed.

(** ** Which objects an operation writes *)

Lemma preserves_ret {T} this (v : T) : preserves_others this (ret v).
Proof. now intros w l _. Qed.

Lemma preserves_undefined {T} this : preserves_others this (@undefined World T).
Proof. now intros w l _. Qed.

Lemma preserves_lift {T} this (o : Outcome T) : preserves_others this (lift o).
Proof. now intros w l _. Qed.

Lemma preserves_count this : preserves_others this (modify count_projection).
Proof. now intros w l _. Qed.

Lemma preserves_load this : preserves_others this (load this).
Proof. intros w l _. unfold load. now destruct (objects w !! this). Qed.

Lemma preserves_bind {T U} this (m : M World T) (k : T -> M World U) :
  preserves_others this m ->
  (forall v, preserves_others this (k v)) ->
  preserves_others this (bind m k).
Proof.
  intros Pm Pk w l N'. unfold bind.
  specialize (Pm w l N').
  destruct (m w) as [[v|e|] w'] eqn:E; cbn [snd] in Pm |- *;
    [rewrite (Pk v w' l N')|..]; exact Pm.
Qed.

Lemma preserves_update this g : preserves_others this (update this g).
Proof.
  apply preserves_bind; [apply preserves_load|].
  intros f w l N'. cbn. now apply lookup_insert_ne.
Qed.

Lemma preserves_when this (c : bool) m :
  preserves_others this m -> preserves_others this (when c m).
Proof. intros Pm. destruct c; [exact Pm|apply preserves_ret]. Qed.

Lemma preserves_project this camera point Dpoint :
  (forall D, preserves_others this (Dpoint D)) ->
  preserves_others this (project camera point Dpoint).
Proof.
  intros PD. unfold project.
  apply preserves_bind; [apply preserves_count|intros _].
  apply preserves_bind; [apply preserves_lift|intros r].
  apply preserves_bind; [apply PD|intros _]. apply preserves_ret.
Qed.

Lemma preserves_assign_block this i m :
  preserves_others this (assign_block this i m).
Proof.
  unfold assign_block.
  apply preserves_bind; [apply preserves_load|intros f].
  destruct (bool_decide _); [apply preserves_update|apply preserves_undefined].
Qed.

(** [linearize] writes no object but its own, however it ends. *)
Lemma linearize_preserves_others this x :
  preserves_others this (linearize this x).
Proof.
  unfold linearize.
  apply preserves_bind; [apply preserves_load|intros self].
  destruct (negb (active self x)); [apply preserves_ret|].
  apply preserves_bind; [apply preserves_when, preserves_update|intros _].
  apply preserves_bind; [apply preserves_lift|intros point].
  apply preserves_bind;
    [apply preserves_project; intros D; apply preserves_update|intros pixel].
  apply preserves_bind; [apply preserves_update|intros _].
  apply preserves_bind;
    [destruct (noiseModel_ (Base self));
       [apply preserves_update|apply preserves_ret]|intros _].
  apply preserves_bind; [apply preserves_assign_block|intros _].
  apply preserves_bind; [apply preserves_assign_block|intros _].
  apply preserves_bind; [apply preserves_load|intros self'].
  apply preserves_ret.
Qed.

(** ** The shape of the scratch members *)

Lemma keeps_ret {T} this (v : T) : keeps_scratch_ok this (ret v).
Proof. intros w I f. apply I. Qed.

Lemma keeps_undefined {T} this : keeps_scratch_ok this (@undefined World T).
Proof. intros w I f. apply I. Qed.

Lemma keeps_lift {T} this (o : Outcome T) : keeps_scratch_ok this (lift o).
Proof. intros w I f. apply I. Qed.

Lemma keeps_count this : keeps_scratch_ok this (modify count_projection).
Proof. intros w I f. apply I. Qed.

Lemma keeps_load this : keeps_scratch_ok this (load this).
Proof.
  intros w I f.
  assert (snd (load this w) = w) as ->
    by (unfold load; now destruct (objects w !! this)).
  apply I.
Qed.

Lemma keeps_bind {T U} this (m : M World T) (k : T -> M World U) :
  keeps_scratch_ok this m ->
  (forall v, keeps_scratch_ok this (k v)) ->
  keeps_scratch_ok this (bind m k).
Proof.
  intros Km Kk w I. unfold bind.
  specialize (Km w I).
  destruct (m w) as [[v|e|] w'] eqn:E; cbn [snd] in Km |- *;
    [now apply Kk|..]; exact Km.
Qed.

Lemma keeps_update this g :
  (forall f, scratch_ok f = true -> scratch_ok (g f) = true) ->
  keeps_scratch_ok this (update this g).
Proof.
  intros Kg w I f.
  destruct (objects w !! this) as [f0|] eqn:L.
  - rewrite (update_live _ _ _ _ L). cbn [snd]. rewrite objects_insert.
    intros [= <-]. apply Kg, (I f0 eq_refl).
  - unfold update, bind, load. rewrite L. cbn [snd]. rewrite L. discriminate.
Qed.

Lemma keeps_update_always this g :
  (forall f, scratch_ok (g f) = true) -> keeps_scratch_ok this (update this g).
Proof.
  intros Kg w I f.
  destruct (objects w !! this) as [f0|] eqn:L.
  - rewrite (update_live _ _ _ _ L). cbn [snd]. rewrite objects_insert.
    intros [= <-]. apply Kg.
  - unfold update, bind, load. rewrite L. cbn [snd]. rewrite L. discriminate.
Qed.

Lemma keeps_when this (c : bool) m :
  keeps_scratch_ok this m -> keeps_scratch_ok this (when c m).
Proof. intros Km. destruct c; [exact Km|apply keeps_ret]. Qed.

Lemma keeps_assign_block this i m :
  keeps_scratch_ok this (assign_block this i m).
Proof.
  unfold assign_block. intros w I f.
  destruct (objects w !! this) as [f0|] eqn:L.
  - rewrite (bind_load _ _ _ _ L).
    destruct (bool_decide _).
    + rewrite (update_live _ _ _ _ L). cbn [snd]. rewrite objects_insert.
      intros [= <-]. specialize (I f0 eq_refl).
      unfold scratch_ok in *. cbn [Ab set_Ab vbm_rows vbm_blocks].
      now rewrite length_insert.
    + cbn [undefined snd]. rewrite L. intros [= <-]. apply (I f0 eq_refl).
  - unfold bind, load. rewrite L. cbn [snd]. rewrite L. discriminate.
Qed.

(** A factor the constructor returns has scratch members that are not
    allocated. *)
Lemma ctor_scratch_ok camera measured model pointKey throwFlag verboseFlag f :
  TriangulationFactor_ctor camera measured model pointKey throwFlag verboseFlag
  = Returned f ->
  scratch_ok f = true.
Proof.
  unfold TriangulationFactor_ctor.
  destruct model as [m|]; [destruct (negb _)|]; intros [= <-]; reflexivity.
Qed.

(** However [linearize] ends, the scratch members keep their shape. *)
Lemma linearize_keeps_scratch_ok this x :
  keeps_scratch_ok this (linearize this x).
Proof.
  unfold linearize.
  apply keeps_bind; [apply keeps_load|intros self].
  destruct (negb (active self x)); [apply keeps_ret|].
  apply keeps_bind;
    [apply keeps_when, keeps_update_always; reflexivity|intros _].
  apply keeps_bind; [apply keeps_lift|intros point].
  apply keeps_bind; [|intros pixel].
  { unfold project.
    apply keeps_bind; [apply keeps_count|intros _].
    apply keeps_bind; [apply keeps_lift|intros r].
    apply keeps_bind; [apply keeps_update; now intros f|intros _].
    apply keeps_ret. }
  apply keeps_bind; [apply keeps_update; now intros f|intros _].
  apply keeps_bind;
    [destruct (noiseModel_ (Base self));
       [apply keeps_update; now intros f|apply keeps_ret]|intros _].
  apply keeps_bind; [apply keeps_assign_block|intros _].
  apply keeps_bind; [apply keeps_assign_block|intros _].
  apply keeps_bind; [apply keeps_load|intros self'].
  apply keeps_ret.
Qed.

(** ** [clone] *)

Lemma clone_run this self w :
  objects w !! this = Some self ->
  clone this w
  = (Returned (fresh (dom (objects w))),
     set_objects (insert (fresh (dom (objects w))) self) w).
Proof. intros L. unfold clone. now rewrite (bind_load _ _ _ _ L). Qed.

Lemma fresh_is_not_live this self w :
  objects w !! this = Some self -> fresh (dom (objects w)) <> this.
Proof.
  intros L Eq.
  apply (is_fresh (dom (objects w))). rewrite Eq.
  apply elem_of_dom. now exists self.
Qed.

(** C9, as amended.  [clone] returns a new object, at an address of its own,
    whose members are those of the original: camera, measurement, key, noise
    model, flags and scratch members.  A later [linearize] of the clone,
    however it ends, leaves the original with the [Ab], [A] and [b] it had.
    The original [equals] the clone, at the default tolerance 1e-9 as at any
    other, exactly when the comparisons of the base class, of the camera and
    of the measurement each accept the original's own data against itself. *)
Theorem clone_is_independent_copy this self w :
  objects w !! this = Some self ->
  exists l w1,
    clone this w = (Returned l, w1)
    /\ l <> this
    /\ objects w !! l = None
    /\ objects w1 !! this = Some self
    /\ (exists copy,
          objects w1 !! l = Some copy
          /\ copy = self
          /\ (equals self (OfThis copy) default_tol = true
              <-> Base_equals (Base self) (OfThis self) default_tol = true
                  /\ Camera_equals (camera_ self) (camera_ self) default_tol = true
                  /\ Point2_equals (measured_ self) (measured_ self) default_tol
                     = true)
          /\ (forall tol,
                equals self (OfThis copy) tol
                = Base_equals (Base self) (OfThis self) tol
                  && Camera_equals (camera_ self) (camera_ self) tol
                  && Point2_equals (measured_ self) (measured_ self) tol))
    /\ forall x,
         let w2 := snd (linearize l x w1) in
         objects w2 !! this = Some self
         /\ (forall orig, objects w2 !! this = Some orig ->
               Ab orig = Ab self /\ A orig = A self /\ b orig = b self).
Proof.
  intros L.
  pose proof (fresh_is_not_live _ _ _ L) as N'.
  exists (fresh (dom (objects w))),
         (set_objects (insert (fresh (dom (objects w))) self) w).
  assert (Orig : objects (set_objects (insert (fresh (dom (objects w))) self) w)
                   !! this = Some self).
  { cbn [objects set_objects]. rewrite lookup_insert_ne by exact N'. exact L. }
  split; [now apply clone_run|]. split; [exact N'|].
  split; [apply not_elem_of_dom, is_fresh|].
  split; [exact Orig|]. split.
  - exists self. split; [apply objects_insert|]. split; [reflexivity|].
    unfold equals. cbn [dynamic_cast_This]. split; [|reflexivity].
    rewrite !andb_true_iff. tauto.
  - intros x w2.
    assert (Kept : objects w2 !! this = Some self).
    { subst w2. rewrite linearize_preserves_others by (intros Eq'; now apply N').
      exact Orig. }
    split; [exact Kept|]. intros orig O. rewrite Kept in O.
    now injection O as <-.
Qed.

End Properties.

(** * The properties in the concrete setting *)

Section Evaluated.

Import Scenario.

(** C1.  The claim fails on [linearize]: with both flags at their defaults
    and a point the camera reports behind it, [evaluateError] returns a
    value, and [linearize] of the same factor at the same point ends with
    the [CheiralityException] in flight. *)
Theorem linearize_behind_camera_throws :
  throwCheirality_ factor0 = false
  /\ verboseCheirality_ factor0 = false
  /\ Camera_project (camera_ factor0) behind = Thrown (CheiralityException what0)
  /\ fst (evaluateError factor0 behind None w0) = Returned [2%float; 2%float]
  /\ fst (linearize (F := framework) 1%N {[ 0%N := behind ]} w0)
     = Thrown (CheiralityException what0).
Proof.
  do 4 (split; [reflexivity|]).
  apply (linearize_projection_throws (F := framework) 1%N _ factor0 w0 behind);
    reflexivity.
Qed.

Lemma evaluateError_projects_witness :
  Camera_project (camera_ factor0) in_front = Returned (pixel_in_front, D_in_front)
  /\ fst (evaluateError factor0 in_front (Some 7%N) w0)
     = Returned [ (1 / 5 - 0)%float; (1 / 5 - 0)%float ]
  /\ matrices (snd (evaluateError factor0 in_front (Some 7%N) w0)) !! 7%N
     = Some D_in_front.
Proof.
  pose proof (evaluateError_projects factor0 in_front (Some 7%N) w0
                pixel_in_front D_in_front eq_refl) as (R & _ & J & _).
  split; [reflexivity|]. split; [exact R|]. exact (J 7%N eq_refl).
Defined.

(** C3, as it was stated, fails: the camera of focal length 2^1023 and the
    point (0,0,-5) behind it, flags at their defaults, give a residual whose
    components are infinite. *)
Lemma evaluateError_behind_not_finite :
  Camera_project (camera_ factor_huge) behind = Thrown (CheiralityException what0)
  /\ throwCheirality_ factor_huge = false
  /\ verboseCheirality_ factor_huge = false
  /\ PrimFloat.is_finite (Camera_fx (camera_ factor_huge)) = true
  /\ fst (evaluateError factor_huge behind None (world_of factor_huge))
     = Returned [infinity; infinity]
  /\ Vector_finite [infinity; infinity] = false.
Proof. repeat split. Qed.

Lemma evaluateError_behind_camera_witness :
  Camera_project (camera_ factor0) behind = Thrown (CheiralityException what0)
  /\ throwCheirality_ factor0 = false
  /\ verboseCheirality_ factor0 = false
  /\ fst (evaluateError factor0 behind (Some 7%N) w0) = Returned [2%float; 2%float]
  /\ Vector_finite [2%float; 2%float] = true
  /\ matrices (snd (evaluateError factor0 behind (Some 7%N) w0)) !! 7%N
     = Some [ [0%float; 0%float; 0%float]; [0%float; 0%float; 0%float] ].
Proof.
  pose proof (evaluateError_behind_camera factor0 behind (Some 7%N) w0 what0
                eq_refl eq_refl eq_refl) as (R & Fin & J & _).
  do 3 (split; [reflexivity|]). split; [exact R|].
  split; [reflexivity|]. exact (J 7%N eq_refl).
Defined.

Lemma evaluateError_rethrows_witness :
  Camera_project (camera_ factor_strict) behind = Thrown (CheiralityException what0)
  /\ throwCheirality_ factor_strict = true
  /\ fst (evaluateError factor_strict behind (Some 7%N) w0)
     = Thrown (CheiralityException what0)
  /\ matrices (snd (evaluateError factor_strict behind (Some 7%N) w0)) !! 7%N
     = Some Z_2x3
  /\ cout (snd (evaluateError factor_strict behind (Some 7%N) w0))
     = ("CheiralityException: Landmark l0 moved behind camera" ++ endl)%string.
Proof.
  pose proof (evaluateError_rethrows factor_strict behind (Some 7%N) w0 what0
                eq_refl eq_refl) as (R & J & C).
  do 2 (split; [reflexivity|]). split; [exact R|].
  split; [exact (J 7%N eq_refl)|]. exact C.
Defined.

Lemma linearize_builds_factor_witness :
  objects (world_of factor_noisy) !! 1%N = Some factor_noisy
  /\ scratch_ok factor_noisy = true
  /\ active (Framework := framework) factor_noisy {[ 0%N := in_front ]} = true
  /\ ({[ 0%N := in_front ]} : gmap N Point3) !! key factor_noisy = Some in_front
  /\ Camera_project (camera_ factor_noisy) in_front
     = Returned (pixel_in_front, D_in_front)
  /\ fst (linearize (F := framework) 1%N {[ 0%N := in_front ]} (world_of factor_noisy))
     = Returned
         (Some (mkJacobianFactor [0%N]
                  (mkVBM 2
                     [ [ [ (1 / 5 / 2)%float; (0 / 2)%float; (- (1 / 25) / 2)%float ];
                         [ (0 / 2)%float; (1 / 5 / 2)%float; (- (1 / 25) / 2)%float ] ];
                       [ [ (- (1 / 5 - 0) / 2)%float ];
                         [ (- (1 / 5 - 0) / 2)%float ] ] ])))
  /\ projections
       (snd (linearize (F := framework) 1%N {[ 0%N := in_front ]} (world_of factor_noisy)))
     = 1.
Proof.
  pose proof (linearize_builds_factor (F := framework) 1%N {[ 0%N := in_front ]}
                factor_noisy (world_of factor_noisy) in_front
                pixel_in_front D_in_front
                eq_refl eq_refl eq_refl eq_refl eq_refl) as (R & _ & P & _).
  do 5 (split; [reflexivity|]). split; [exact R|exact P].
Defined.

Lemma linearize_inactive_witness :
  objects w0 !! 1%N = Some factor0
  /\ active (Framework := framework_off) factor0 {[ 0%N := in_front ]} = false
  /\ linearize (F := framework_off) 1%N {[ 0%N := in_front ]} w0 = (Returned None, w0).
Proof.
  do 2 (split; [reflexivity|]).
  apply (linearize_inactive (F := framework_off) 1%N _ factor0 w0); reflexivity.
Defined.

(** C7, as it was stated, fails: when the activity predicate switches the
    factor off, [linearize] on values that do not hold its key returns the
    null pointer and raises nothing. *)
Lemma linearize_absent_key_inactive :
  (∅ : gmap N Point3) !! key factor0 = None
  /\ objects w0 !! 1%N = Some factor0
  /\ fst (linearize (F := framework_off) 1%N ∅ w0) = Returned None.
Proof. repeat split. Qed.

Lemma linearize_absent_key_witness :
  objects w0 !! 1%N = Some factor0
  /\ active (Framework := framework) factor0 ∅ = true
  /\ (∅ : gmap N Point3) !! key factor0 = None
  /\ fst (linearize (F := framework) 1%N ∅ w0) = Thrown (ValuesKeyDoesNotExist 0%N).
Proof.
  pose proof (linearize_absent_key (F := framework) 1%N ∅ factor0 w0
                eq_refl eq_refl eq_refl) as (_ & R & _).
  do 3 (split; [reflexivity|]). exact R.
Defined.

Lemma clone_is_independent_copy_witness :
  objects w0 !! 1%N = Some factor0
  /\ exists l w1,
       clone 1%N w0 = (Returned l, w1)
       /\ l <> 1%N
       /\ objects w1 !! l = Some factor0
       /\ equals (F := framework) factor0 (OfThis factor0) default_tol = true
       /\ forall x, objects (snd (linearize (F := framework) l x w1)) !! 1%N
                    = Some factor0.
Proof.
  destruct (clone_is_independent_copy (F := framework) 1%N factor0 w0 eq_refl)
    as (l & w1 & R & N' & _ & _ & (copy & C & -> & Eq & _) & Lin).
  split; [reflexivity|]. exists l, w1.
  split; [exact R|]. split; [exact N'|]. split; [exact C|].
  split; [apply Eq; repeat split|].
  intros x. exact (proj1 (Lin x)).
Defined.

(** C9, as it was stated, fails: the constructor accepts a measurement whose
    first coordinate is not a number, and the clone of that factor, a copy of
    it member for member, is not [equals] to it at the tolerance 1e-9,
    because the comparison of the measurement, |x - x'| < tol on each
    coordinate, refuses a coordinate that is not a number even against
    itself. *)
Lemma clone_of_nan_measurement_not_equal :
  TriangulationFactor_ctor_default (mkPinhole 1%float)
    (mkPoint2 nan 0%float) None 0%N
  = Returned TwoFactors.factor_nan
  /\ exists l w1,
       clone 1%N (world_of TwoFactors.factor_nan) = (Returned l, w1)
       /\ exists copy,
            objects w1 !! l = Some copy
            /\ copy = TwoFactors.factor_nan
            /\ equals (F := framework) TwoFactors.factor_nan (OfThis copy)
                 default_tol = false.
Proof.
  split; [reflexivity|].
  eexists. eexists. split; [apply clone_run; reflexivity|].
  exists TwoFactors.factor_nan. split; [apply objects_insert|].
  split; reflexivity.
Qed.

Lemma equals_rejects_other_types_witness :
  dynamic_cast_This (OfForeign (mkPrior 0%N)) = None
  /\ Base_equals (Framework := framework) (Base factor0) (OfForeign (mkPrior 0%N))
       default_tol = true
  /\ equals (F := framework) factor0 (OfForeign (mkPrior 0%N)) default_tol = false.
Proof.
  do 2 (split; [reflexivity|]).
  apply (equals_rejects_other_types (F := framework) factor0); reflexivity.
Defined.

End Evaluated.


(** * More on [linearize]: one object at a time *)

Section Locality.

Context {G : Geometry} {F : Framework}.

Implicit Types (self : TriangulationFactor) (w : World) (this : N).
Implicit Types (point : Point3) (x : gmap N Point3).

Lemma project_Undefined camera point Dpoint w :
  Camera_project camera point = Undefined ->
  project camera point Dpoint w = (Undefined, count_projection w).
Proof. intros E. unfold project, bind, modify, lift. now rewrite E. Qed.

Lemma objects_world_after this f calls w :
  objects (world_after this f calls w) !! this = Some f.
Proof. apply lookup_insert_eq. Qed.

Lemma world_after_same this f w :
  objects w !! this = Some f -> world_after this f 0 w = w.
Proof.
  intros L. destruct w as [c m o p]. unfold world_after. cbn in *.
  now rewrite insert_id.
Qed.

Lemma set_objects_world_after this f g calls w :
  set_objects (insert this g) (world_after this f calls w)
  = world_after this g calls w.
Proof.
  unfold set_objects, world_after. cbn. now rewrite insert_insert_eq.
Qed.

Lemma count_world_after this f calls w :
  count_projection (world_after this f calls w) = world_after this f (S calls) w.
Proof. reflexivity. Qed.

Lemma update_world_after this g f calls w :
  update this g (world_after this f calls w)
  = (Returned tt, world_after this (g f) calls w).
Proof.
  rewrite (update_live _ _ _ f) by apply objects_world_after.
  now rewrite set_objects_world_after.
Qed.

Lemma assign_block_world_after this i m f calls w :
  assign_block this i m (world_after this f calls w)
  = if bool_decide (i < length (vbm_blocks (Ab f)))
    then (Returned tt,
          world_after this
            (set_Ab (mkVBM (vbm_rows (Ab f)) (<[i := m f]> (vbm_blocks (Ab f)))) f)
            calls w)
    else (Undefined, world_after this f calls w).
Proof.
  unfold assign_block.
  rewrite (bind_load _ _ _ f) by apply objects_world_after.
  destruct (bool_decide _); [apply update_world_after|reflexivity].
Qed.

(** The blocks are filled as [fill_blocks] tells. *)
Lemma fill_blocks_refines this f calls w :
  (assign_block this 0 A >>
   assign_block this 1 (fun f => column (b f)) >>
   let* self' := load this in
   ret (Some (mkJacobianFactor (keys_ self') (Ab self'))))
    (world_after this f calls w)
  = (fst (fill_blocks f), world_after this (snd (fill_blocks f)) calls w).
Proof.
  unfold fill_blocks.
  destruct (bool_decide (0 < length (vbm_blocks (Ab f)))) eqn:B0.
  - erewrite bind_Returned by (rewrite assign_block_world_after, B0; reflexivity).
    cbv zeta.
    destruct (bool_decide (1 < length (vbm_blocks (Ab (set_Ab _ f))))) eqn:B1.
    + erewrite bind_Returned by (rewrite assign_block_world_after, B1; reflexivity).
      erewrite bind_load by apply objects_world_after. reflexivity.
    + erewrite bind_Undefined by (rewrite assign_block_world_after, B1; reflexivity).
      reflexivity.
  - erewrite bind_Undefined by (rewrite assign_block_world_after, B0; reflexivity).
    reflexivity.
Qed.

(** [linearize] on the heap does to the object at [this] what
    [linearize_object] tells, and nothing else to the world but count the
    camera calls. *)
Lemma linearize_refines this x self w :
  objects w !! this = Some self ->
  linearize this x w
  = (fst (fst (linearize_object self x)),
     world_after this (snd (fst (linearize_object self x)))
       (snd (linearize_object self x)) w).
Proof.
  intros L. unfold linearize, linearize_object.
  rewrite (bind_load _ _ _ _ L).
  destruct (negb (active self x)).
  { cbn [fst snd ret]. now rewrite world_after_same. }
  set (s1 := if Nat.eqb (vbm_rows (Ab self)) 0 then allocate_scratch self else self).
  assert (W1 : forall T (k : M World T),
             (when (Nat.eqb (vbm_rows (Ab self)) 0) (update this allocate_scratch) >> k) w
             = k (world_after this s1 0 w)).
  { intros T k. subst s1. destruct (Nat.eqb (vbm_rows (Ab self)) 0); cbn [when].
    - now rewrite (bind_update _ _ _ _ _ L).
    - erewrite bind_Returned by reflexivity. now rewrite world_after_same. }
  rewrite W1. clear W1.
  destruct (Values_at x (key self)) as [point|e|].
  2: { now erewrite bind_Thrown by reflexivity. }
  2: { now erewrite bind_Undefined by reflexivity. }
  erewrite bind_Returned by reflexivity.
  destruct (Camera_project (camera_ self) point) as [[pixel D]|e|] eqn:E.
  2: { erewrite bind_Thrown by (apply project_Thrown, E). reflexivity. }
  2: { erewrite bind_Undefined by (apply project_Undefined, E). reflexivity. }
  erewrite bind_Returned.
  2: { rewrite (project_Returned _ _ _ _ _ _ E).
       erewrite bind_Returned by (rewrite count_world_after; apply update_world_after).
       reflexivity. }
  erewrite bind_Returned by apply update_world_after.
  cbn [fst snd].
  destruct (noiseModel_ (Base self)) as [model|].
  - erewrite bind_Returned by apply update_world_after.
    apply fill_blocks_refines.
  - erewrite bind_Returned by reflexivity.
    apply fill_blocks_refines.
Qed.


(** ** Every way [evaluateError] can end *)

Lemma evaluateError_run self point (H2 : OptionalJacobian) w :
  evaluateError self point H2 w
  = match Camera_project (camera_ self) point with
    | Returned r =>
        (Returned (Point2_vector (Point2_sub (fst r) (measured_ self))),
         after_projection H2 (snd r) w)
    | Thrown (CheiralityException what) =>
        (if throwCheirality_ self
         then Thrown (CheiralityException what)
         else Returned (cheirality_error self),
         after_cheirality self H2 what w)
    | Thrown e => (Thrown e, count_projection w)
    | Undefined => (Undefined, count_projection w)
    end.
Proof.
  destruct (Camera_project (camera_ self) point) as [[pixel D]|e|] eqn:E.
  - unfold evaluateError. apply try_catch_Returned.
    erewrite bind_Returned; [reflexivity|].
    rewrite (project_Returned _ _ _ _ _ _ E).
    unfold after_projection. now destruct H2.
  - destruct e; try (unfold evaluateError;
      erewrite try_catch_Thrown;
        [|erewrite bind_Thrown; [reflexivity|apply project_Thrown, E]];
      reflexivity).
    now apply evaluateError_cheirality.
  - unfold evaluateError, try_catch.
    erewrite bind_Undefined by (apply project_Undefined, E). reflexivity.
Qed.

(** X1.  [evaluateError] catches [CheiralityException] and nothing else: any
    other exception of the projection leaves it as it came, whatever the
    flags, with nothing printed and the caller's Jacobian not written. *)
Theorem evaluateError_other_exception self point (H2 : OptionalJacobian) w e :
  Camera_project (camera_ self) point = Thrown e ->
  (forall what, e <> CheiralityException what) ->
  evaluateError self point H2 w = (Thrown e, count_projection w).
Proof.
  intros E N'. rewrite evaluateError_run, E.
  destruct e; try reflexivity. now destruct (N' what).
Qed.

(** X2.  However [evaluateError] ends, it has called the projection once and
    written no factor; it writes no matrix but the one [H2] refers to, and
    prints nothing unless [verboseCheirality_] is set. *)
Theorem evaluateError_frame self point (H2 : OptionalJacobian) w :
  let r := evaluateError self point H2 w in
  projections (snd r) = S (projections w)
  /\ objects (snd r) = objects w
  /\ (forall l, H2 <> Some l -> matrices (snd r) !! l = matrices w !! l)
  /\ (verboseCheirality_ self = false -> cout (snd r) = cout w).
Proof.
  intros r. subst r. rewrite evaluateError_run.
  assert (Other : forall D l, H2 <> Some l ->
            matrices (snd (OptionalJacobian_assign H2 D (count_projection w))) !! l
            = matrices w !! l).
  { intros D l N'. destruct H2 as [l'|]; [|reflexivity].
    cbn. apply lookup_insert_ne. congruence. }
  destruct (Camera_project (camera_ self) point) as [[pixel D]|e|].
  - unfold after_projection. cbn [fst snd].
    repeat split; try (now destruct H2). apply Other.
  - destruct e; cbn [fst snd]; try (now repeat split).
    unfold after_cheirality.
    destruct (verboseCheirality_ self); cbn [cout set_cout matrices objects projections];
      (split; [now destruct H2|]); (split; [now destruct H2|]);
      (split; [apply Other|]); try discriminate.
    intros _. now destruct H2.
  - now repeat split.
Qed.

(** X3.  The flag [verboseCheirality_] changes what is printed and nothing
    else: with the flag set either way, [evaluateError] ends the same way
    and leaves the same matrices, factors and count of camera calls. *)
Theorem evaluateError_verbose_observational self point (H2 : OptionalJacobian)
    w (v : bool) :
  let r := evaluateError self point H2 w in
  let r' := evaluateError (with_verbose v self) point H2 w in
  fst r' = fst r
  /\ matrices (snd r') = matrices (snd r)
  /\ objects (snd r') = objects (snd r)
  /\ projections (snd r') = projections (snd r).
Proof.
  intros r r'. subst r r'. rewrite !evaluateError_run.
  cbn [camera_ with_verbose measured_ throwCheirality_].
  destruct (Camera_project (camera_ self) point) as [[pixel D]|e|];
    [now repeat split| |now repeat split].
  destruct e; try (now repeat split).
  unfold after_cheirality. cbn [verboseCheirality_ with_verbose fst snd].
  destruct v, (verboseCheirality_ self); now repeat split.
Qed.

(** X4.  With [verboseCheirality_] set and [throwCheirality_] not, a point
    the camera reports behind it gives the fallback residual, 2.0 times the
    focal length in both components, a requested Jacobian is zero, and the
    line naming the landmark's key has been added to what was printed. *)
Theorem evaluateError_verbose_fallback self point (H2 : OptionalJacobian) w what :
  Camera_project (camera_ self) point = Thrown (CheiralityException what) ->
  throwCheirality_ self = false ->
  verboseCheirality_ self = true ->
  let r := evaluateError self point H2 w in
  fst r = Returned [ (2 * Camera_fx (camera_ self))%float;
                     (2 * Camera_fx (camera_ self))%float ]
  /\ (forall l, H2 = Some l -> matrices (snd r) !! l = Some Z_2x3)
  /\ cout (snd r)
     = (cout w ++ (what ++ ": Landmark " ++ DefaultKeyFormatter (key self)
                     ++ " moved behind camera" ++ endl))%string.
Proof.
  intros E T V r. subst r. rewrite evaluateError_run, E, T. cbn [fst snd].
  split; [reflexivity|]. split.
  - intros l L. now apply after_cheirality_jacobian.
  - unfold after_cheirality. rewrite V. now destruct H2.
Qed.


(** ** What [linearize] does to its object *)

Lemma fill_blocks_keeps (s : TriangulationFactor) :
  let s' := snd (fill_blocks s) in
  same_const s' s /\ A s' = A s /\ b s' = b s
  /\ vbm_rows (Ab s') = vbm_rows (Ab s)
  /\ length (vbm_blocks (Ab s')) = length (vbm_blocks (Ab s)).
Proof.
  unfold fill_blocks, same_const.
  destruct (bool_decide (0 < length (vbm_blocks (Ab s)))); [|now repeat split].
  cbv zeta.
  destruct (bool_decide (1 < length (vbm_blocks (Ab (set_Ab _ s)))));
    cbn [fst snd Ab A b set_Ab Base camera_ measured_ throwCheirality_
         verboseCheirality_ vbm_rows vbm_blocks];
    rewrite ?length_insert; now repeat split.
Qed.

Lemma linearize_object_const self x :
  same_const (snd (fst (linearize_object self x))) self.
Proof.
  assert (S1 : same_const
                 (if Nat.eqb (vbm_rows (Ab self)) 0 then allocate_scratch self else self)
                 self)
    by (destruct (Nat.eqb _ 0); now repeat split).
  unfold linearize_object.
  destruct (negb (active self x)); [now repeat split|].
  destruct (Values_at x (key self)) as [point|e|]; [|exact S1|exact S1].
  destruct (Camera_project (camera_ self) point) as [r|e|]; [|exact S1|exact S1].
  cbn [fst snd].
  match goal with |- same_const (snd (fill_blocks ?s3)) _ =>
    destruct (fill_blocks_keeps s3) as (C & _);
    assert (C3 : same_const s3 self)
  end.
  { destruct S1 as (E1 & E2 & E3 & E4 & E5).
    destruct (noiseModel_ (Base self)); now repeat split. }
  destruct C as (E1 & E2 & E3 & E4 & E5), C3 as (D1 & D2 & D3 & D4 & D5).
  repeat split; congruence.
Qed.

Lemma linearize_object_calls self x : snd (linearize_object self x) <= 1.
Proof.
  unfold linearize_object.
  destruct (negb (active self x)); [cbn; lia|].
  destruct (Values_at x (key self)) as [point|e|]; [|cbn; lia..].
  destruct (Camera_project (camera_ self) point) as [r|e|]; cbn; lia.
Qed.

(** The scratch members of an active factor after the allocation step. *)
Lemma allocated_shape self :
  scratch_ok self = true ->
  let s1 := if Nat.eqb (vbm_rows (Ab self)) 0 then allocate_scratch self else self in
  vbm_rows (Ab s1) = 2 /\ length (vbm_blocks (Ab s1)) = 2.
Proof.
  intros Ok. unfold scratch_ok in Ok.
  destruct (Nat.eqb (vbm_rows (Ab self)) 0); [now split|].
  cbn [orb] in Ok. apply andb_prop in Ok as [R Bl].
  apply Nat.eqb_eq in R, Bl. now split.
Qed.

Lemma fill_blocks_two (s : TriangulationFactor) :
  length (vbm_blocks (Ab s)) = 2 ->
  fill_blocks s
  = (Returned (Some (mkJacobianFactor [key s]
                       (mkVBM (vbm_rows (Ab s)) [A s; column (b s)]))),
     set_Ab (mkVBM (vbm_rows (Ab s)) [A s; column (b s)]) s).
Proof.
  intros L. unfold fill_blocks.
  destruct s as [B0 c0 m0 t0 v0 [rows blocks] A0 b0]. cbn in *.
  destruct blocks as [|B1 [|B2 [|]]]; try discriminate L. reflexivity.
Qed.

Lemma linearize_object_success self x point pixel D :
  scratch_ok self = true ->
  active self x = true ->
  x !! key self = Some point ->
  Camera_project (camera_ self) point = Returned (pixel, D) ->
  let b0 := Vector_opp (Point2_vector (Point2_sub pixel (measured_ self))) in
  let Ab' := match noiseModel_ (Base self) with
             | Some model => WhitenSystem model D b0
             | None => (D, b0)
             end in
  linearize_object self x
  = (Returned (Some (mkJacobianFactor [key self]
                       (mkVBM 2 [fst Ab'; column (snd Ab')]))),
     mkFactor (Base self) (camera_ self) (measured_ self)
       (throwCheirality_ self) (verboseCheirality_ self)
       (mkVBM 2 [fst Ab'; column (snd Ab')]) (fst Ab') (snd Ab'),
     1).
Proof.
  intros Ok Act X E b0 Ab'.
  destruct (allocated_shape self Ok) as (R & Bl).
  unfold linearize_object. rewrite Act. cbn [negb].
  unfold Values_at. rewrite X, E. cbn [fst snd].
  rewrite fill_blocks_two.
  - subst Ab' b0.
    destruct (noiseModel_ (Base self)) as [model|] eqn:Nm;
      destruct (Nat.eqb (vbm_rows (Ab self)) 0);
      cbn [Ab A b set_Ab set_A set_b whiten_scratch allocate_scratch vbm_rows
           vbm_blocks key Base camera_ measured_ throwCheirality_
           verboseCheirality_ fst snd VerticalBlockMatrix_new] in *;
      rewrite ?R; reflexivity.
  - destruct (noiseModel_ (Base self)); exact Bl.
Qed.


(** A second call on the object a successful call left. *)
Lemma linearize_object_again self x jf f1 n :
  linearize_object self x = (Returned (Some jf), f1, n) ->
  active f1 x = true ->
  linearize_object f1 x = (Returned (Some jf), f1, 1).
Proof.
  unfold linearize_object at 1.
  destruct (negb (active self x)); [discriminate|].
  destruct (Values_at x (key self)) as [point|e|] eqn:V; try discriminate.
  destruct (Camera_project (camera_ self) point) as [r|e|] eqn:E; try discriminate.
  set (s3 := match noiseModel_ (Base self) with
             | Some model => whiten_scratch model _
             | None => _
             end).
  assert (S3 : same_const s3 self
               /\ (vbm_rows (Ab self) = 0 -> Ab s3 = VerticalBlockMatrix_new [3] 2 true)
               /\ (vbm_rows (Ab self) <> 0 -> Ab s3 = Ab self)
               /\ (A s3, b s3)
                  = (let b0 := Vector_opp (Point2_vector
                                             (Point2_sub (fst r) (measured_ self))) in
                     match noiseModel_ (Base self) with
                     | Some model => WhitenSystem model (snd r) b0
                     | None => (snd r, b0)
                     end)).
  { subst s3. unfold same_const.
    destruct (Nat.eqb_spec (vbm_rows (Ab self)) 0) as [R|R];
      destruct (noiseModel_ (Base self)) as [model|];
      cbn [Ab A b set_Ab set_A set_b whiten_scratch allocate_scratch Base camera_
           measured_ throwCheirality_ verboseCheirality_];
      repeat split; try (intros R'; congruence);
      now destruct (WhitenSystem model _ _). }
  clearbody s3. destruct S3 as ((C1 & C2 & C3 & C4 & C5) & R0 & Rn & AB).
  destruct s3 as [B3 c3 m3 t3 v3 [rows3 blocks3] A3 b3].
  cbn [Base camera_ measured_ throwCheirality_ verboseCheirality_ Ab A b] in *.
  subst B3 c3 m3 t3 v3.
  unfold fill_blocks.
  cbn [Ab A b set_Ab vbm_rows vbm_blocks].
  destruct blocks3 as [|X0 [|X1 rest]];
    [cbn; discriminate|cbn; discriminate|].
  rewrite !bool_decide_true by (cbn; lia).
  unfold set_Ab.
  cbn [fst snd list_insert insert keys_ key Base Ab A b vbm_rows vbm_blocks
       camera_ measured_ throwCheirality_ verboseCheirality_].
  intros [= <- <- <-] Act.
  unfold linearize_object. rewrite Act. cbn [negb].
  unfold key in *. cbn [Base Ab camera_ measured_ vbm_rows].
  rewrite V, E. cbn [fst snd].
  assert (Rows : Nat.eqb rows3 0 = false).
  { apply Nat.eqb_neq. destruct (Nat.eq_dec (vbm_rows (Ab self)) 0) as [R|R].
    - specialize (R0 R). now injection R0 as -> _.
    - specialize (Rn R). intros ->. apply R. now rewrite <- Rn. }
  rewrite Rows.
  cbv zeta in AB. unfold fill_blocks.
  destruct (noiseModel_ (Base self)) as [model|];
    unfold whiten_scratch;
    cbn [Ab A b set_Ab set_A set_b vbm_rows vbm_blocks];
    [rewrite <- AB|injection AB as -> ->];
    cbn [Ab A b set_Ab set_A set_b vbm_rows vbm_blocks fst snd];
    rewrite !bool_decide_true by (cbn; lia);
    reflexivity.
Qed.

(** X5.  [linearize] and [evaluateError] agree at a point the camera
    projects: the [b] that [linearize] puts in the second block is minus the
    error vector [evaluateError] returns, and its [A] is the Jacobian
    [evaluateError] gives, both passed through the noise model's whitening
    when there is one. *)
Theorem linearize_negates_error this x self w point pixel D (l : N) w' :
  objects w !! this = Some self ->
  scratch_ok self = true ->
  active self x = true ->
  x !! key self = Some point ->
  Camera_project (camera_ self) point = Returned (pixel, D) ->
  exists (v : Vector) (H : Matrix),
    fst (evaluateError self point (Some l) w') = Returned v
    /\ matrices (snd (evaluateError self point (Some l) w')) !! l = Some H
    /\ let Ab' := match noiseModel_ (Base self) with
                  | Some model => WhitenSystem model H (Vector_opp v)
                  | None => (H, Vector_opp v)
                  end in
       fst (linearize this x w)
       = Returned (Some (mkJacobianFactor [key self]
                           (mkVBM 2 [fst Ab'; column (snd Ab')]))).
Proof.
  intros L Ok Act X E.
  exists (Point2_vector (Point2_sub pixel (measured_ self))), D.
  rewrite evaluateError_run, E. cbn [fst snd].
  split; [reflexivity|]. split; [apply lookup_insert_eq|].
  rewrite (linearize_refines _ _ _ _ L).
  now rewrite (linearize_object_success _ _ _ _ _ Ok Act X E).
Qed.

(** X6.  How [linearize] ends depends on the object and the values alone,
    not on the address of the object nor on anything else in the world; and
    so does the object it leaves, for a call that leaves no uninitialised
    scratch entry behind. *)
Theorem linearize_local this this' x self w w' :
  objects w !! this = Some self ->
  objects w' !! this' = Some self ->
  fst (linearize this x w) = fst (linearize this' x w')
  /\ (scratch_determined self (fst (linearize this x w)) ->
      objects (snd (linearize this x w)) !! this
      = objects (snd (linearize this' x w')) !! this').
Proof.
  intros L L'.
  rewrite (linearize_refines _ _ _ _ L), (linearize_refines _ _ _ _ L').
  cbn [fst snd]. now rewrite !objects_world_after.
Qed.

(** X7.  A clone linearizes as its original does: in the world [clone]
    leaves, [linearize] of the clone and [linearize] of the original at the
    same values end the same way, with the same Jacobian factor when there
    is one; and they leave equal scratch members in the two objects, for
    calls that leave no uninitialised scratch entry behind. *)
Theorem clone_linearizes_alike this self w :
  objects w !! this = Some self ->
  exists l w1,
    clone this w = (Returned l, w1)
    /\ forall x,
         fst (linearize l x w1) = fst (linearize this x w1)
         /\ (scratch_determined self (fst (linearize this x w1)) ->
             objects (snd (linearize l x w1)) !! l
             = objects (snd (linearize this x w1)) !! this).
Proof.
  intros L.
  exists (fresh (dom (objects w))),
         (set_objects (insert (fresh (dom (objects w))) self) w).
  split; [now apply clone_run|]. intros x.
  assert (Lo : objects (set_objects (insert (fresh (dom (objects w))) self) w)
                 !! this = Some self).
  { cbn [objects set_objects].
    rewrite lookup_insert_ne by (intros Eq; now apply (fresh_is_not_live _ _ _ L)).
    exact L. }
  rewrite (linearize_refines _ x self _ (objects_insert _ _ _)),
          (linearize_refines _ x self _ Lo).
  cbn [fst snd]. now rewrite !objects_world_after.
Qed.

(** X8.  Calls of [linearize] on two different factors do not interfere:
    each ends as it would have alone; the two orders leave the same output,
    the same matrices of callers, the same count of camera calls and the
    same objects elsewhere; and they leave the same world altogether when
    neither call leaves an uninitialised scratch entry behind. *)
Theorem linearize_commutes this l x y f g w :
  this <> l ->
  objects w !! this = Some f ->
  objects w !! l = Some g ->
  let r1 := linearize this x w in
  let r2 := linearize l y (snd r1) in
  let q1 := linearize l y w in
  let q2 := linearize this x (snd q1) in
  fst r2 = fst q1 /\ fst q2 = fst r1
  /\ cout (snd r2) = cout (snd q2)
  /\ matrices (snd r2) = matrices (snd q2)
  /\ projections (snd r2) = projections (snd q2)
  /\ (forall a, a <> this -> a <> l ->
        objects (snd r2) !! a = objects (snd q2) !! a)
  /\ (scratch_determined f (fst r1) -> scratch_determined g (fst q1) ->
      snd r2 = snd q2).
Proof.
  intros N' Lf Lg r1 r2 q1 q2. subst r1 r2 q1 q2.
  rewrite (linearize_refines _ x _ _ Lf), (linearize_refines _ y _ _ Lg).
  cbn [fst snd].
  rewrite (linearize_refines l y g), (linearize_refines this x f).
  2: { cbn [objects world_after]. now rewrite lookup_insert_ne by congruence. }
  2: { cbn [objects world_after]. now rewrite lookup_insert_ne by congruence. }
  cbn [fst snd]. split; [reflexivity|]. split; [reflexivity|].
  unfold world_after. cbn [cout matrices objects projections].
  split; [reflexivity|]. split; [reflexivity|]. split; [lia|]. split.
  - intros a Na Nl. now rewrite !lookup_insert_ne by congruence.
  - intros _ _. f_equal; [apply insert_insert_ne; congruence|lia].
Qed.

(** X9.  The scratch members are reused: after a call of [linearize] that
    returned a Jacobian factor, a second call at the same values, the factor
    still being active, returns the same Jacobian factor and leaves the
    object as the first call left it. *)
Theorem linearize_again this x self w jf f1 :
  objects w !! this = Some self ->
  fst (linearize this x w) = Returned (Some jf) ->
  objects (snd (linearize this x w)) !! this = Some f1 ->
  active f1 x = true ->
  let r2 := linearize this x (snd (linearize this x w)) in
  fst r2 = Returned (Some jf)
  /\ objects (snd r2) !! this = Some f1
  /\ vbm_rows (Ab f1) <> 0.
Proof.
  intros L. rewrite (linearize_refines _ _ _ _ L). cbn [fst snd].
  rewrite objects_world_after.
  destruct (linearize_object self x) as [[o f'] n] eqn:Run. cbn [fst snd].
  intros -> [= ->] Act.
  pose proof (linearize_object_again _ _ _ _ _ Run Act) as Again.
  rewrite (linearize_refines _ x f1) by apply objects_world_after.
  rewrite Again. cbn [fst snd]. rewrite objects_world_after.
  split; [reflexivity|]. split; [reflexivity|].
  intros R. unfold linearize_object in Again. rewrite Act, R in Again.
  cbn [negb Nat.eqb] in Again.
  destruct (Values_at x (key f1)) as [point|e|]; try discriminate.
  destruct (Camera_project (camera_ f1) point) as [r|e|]; try discriminate.
  injection Again as Eq. apply (f_equal snd) in Eq. cbn [snd] in Eq.
  match type of Eq with snd (fill_blocks ?s3) = _ =>
    destruct (fill_blocks_keeps s3) as (_ & _ & _ & Rows & _);
    rewrite Eq in Rows; rewrite R in Rows;
    destruct (noiseModel_ (Base f1)); discriminate Rows
  end.
Qed.

(** X10.  An active call of [linearize] allocates the scratch members before
    anything can go wrong: however the call ends, by a missing key or an
    exception of the camera too, the object has its two rows and two blocks
    afterwards. *)
Theorem linearize_leaves_scratch_allocated this x self w :
  objects w !! this = Some self ->
  scratch_ok self = true ->
  active self x = true ->
  exists f',
    objects (snd (linearize this x w)) !! this = Some f'
    /\ vbm_rows (Ab f') = 2
    /\ length (vbm_blocks (Ab f')) = 2.
Proof.
  intros L Ok Act.
  rewrite (linearize_refines _ _ _ _ L). cbn [fst snd].
  rewrite objects_world_after. eexists. split; [reflexivity|].
  destruct (allocated_shape self Ok) as (R & Bl).
  unfold linearize_object. rewrite Act. cbn [negb].
  destruct (Values_at x (key self)) as [point|e|]; [|now split..].
  destruct (Camera_project (camera_ self) point) as [r|e|]; [|now split..].
  cbn [fst snd].
  match goal with |- context [fill_blocks ?s3] =>
    destruct (fill_blocks_keeps s3) as (_ & _ & _ & -> & ->)
  end.
  destruct (noiseModel_ (Base self)); now split.
Qed.

(** X11.  Whatever its outcome, [linearize] prints nothing, writes no matrix
    of a caller, calls the camera at most once, leaves its object alive with
    the members that are [const] in the source as they were, and writes no
    other object. *)
Theorem linearize_frame this x self w :
  objects w !! this = Some self ->
  let r := linearize this x w in
  cout (snd r) = cout w
  /\ matrices (snd r) = matrices w
  /\ projections w <= projections (snd r) <= S (projections w)
  /\ (exists f', objects (snd r) !! this = Some f' /\ same_const f' self)
  /\ (forall l, l <> this -> objects (snd r) !! l = objects w !! l).
Proof.
  intros L r. subst r.
  rewrite (linearize_refines _ _ _ _ L). cbn [fst snd].
  pose proof (linearize_object_calls self x) as Calls.
  split; [reflexivity|]. split; [reflexivity|].
  split; [cbn [projections world_after]; lia|]. split.
  - eexists. split; [apply objects_world_after|apply linearize_object_const].
  - intros l N'. cbn [objects world_after]. now apply lookup_insert_ne.
Qed.

(** One call of [linearize], for the induction below. *)
Lemma linearize_step this x f1 w :
  objects w !! this = Some f1 ->
  scratch_ok f1 = true ->
  exists f2,
    objects (snd (linearize this x w)) !! this = Some f2
    /\ same_const f2 f1 /\ scratch_ok f2 = true
    /\ cout (snd (linearize this x w)) = cout w
    /\ projections (snd (linearize this x w)) <= S (projections w).
Proof.
  intros L Ok.
  assert (Lf : exists f2, objects (snd (linearize this x w)) !! this = Some f2
                          /\ same_const f2 f1
                          /\ cout (snd (linearize this x w)) = cout w
                          /\ projections (snd (linearize this x w)) <= S (projections w)).
  { rewrite (linearize_refines _ _ _ _ L). cbn [fst snd].
    pose proof (linearize_object_calls f1 x) as Calls.
    eexists. split; [apply objects_world_after|].
    split; [apply linearize_object_const|].
    split; [reflexivity|cbn [projections world_after]; lia]. }
  destruct Lf as (f2 & L2 & C & Co & P). exists f2.
  split; [exact L2|]. split; [exact C|]. split; [|now split].
  apply (linearize_keeps_scratch_ok this x w); [|exact L2].
  intros f Lf'. rewrite L in Lf'. now injection Lf' as <-.
Qed.

Lemma linearize_all_keeps this xs : forall w f1,
  objects w !! this = Some f1 ->
  scratch_ok f1 = true ->
  exists f',
    objects (linearize_all this xs w) !! this = Some f'
    /\ same_const f' f1 /\ scratch_ok f' = true
    /\ cout (linearize_all this xs w) = cout w
    /\ projections (linearize_all this xs w) <= length xs + projections w.
Proof.
  induction xs as [|x xs IH]; intros w f1 L Ok.
  - exists f1. cbn. unfold same_const. now repeat split.
  - destruct (linearize_step this x f1 w L Ok) as (f2 & L2 & C2 & Ok2 & Co2 & P2).
    destruct (IH _ _ L2 Ok2) as (f' & L' & C' & Ok' & Co' & P').
    exists f'. cbn [linearize_all length].
    split; [exact L'|]. split.
    { destruct C2 as (E1 & E2 & E3 & E4 & E5), C' as (D1 & D2 & D3 & D4 & D5).
      unfold same_const. repeat split; congruence. }
    split; [exact Ok'|]. split; [congruence|lia].
Qed.

(** X12.  A factor the constructor returned keeps, through any number of
    calls of [linearize] whatever way they end, the camera, the measurement,
    the key and the flags it was built with, a noise model that is null or
    of dimension 2, and scratch members that are unallocated or of two rows
    and two blocks; the calls print nothing, and call the camera at most
    once each. *)
Theorem linearize_all_invariant camera measured (model : SharedNoiseModel)
    (pointKey : N) (throwFlag verboseFlag : bool) f this w
    (xs : list (gmap N Point3)) :
  TriangulationFactor_ctor camera measured model pointKey throwFlag verboseFlag
  = Returned f ->
  objects w !! this = Some f ->
  exists f',
    objects (linearize_all this xs w) !! this = Some f'
    /\ camera_ f' = camera /\ measured_ f' = measured /\ key f' = pointKey
    /\ throwCheirality_ f' = throwFlag /\ verboseCheirality_ f' = verboseFlag
    /\ noiseModel_ (Base f') = model
    /\ (forall m, noiseModel_ (Base f') = Some m -> NoiseModel_dim m = 2)
    /\ scratch_ok f' = true
    /\ cout (linearize_all this xs w) = cout w
    /\ projections (linearize_all this xs w) <= length xs + projections w.
Proof.
  intros Ct L.
  destruct (linearize_all_keeps this xs w f L (ctor_scratch_ok _ _ _ _ _ _ _ Ct))
    as (f' & L' & (E1 & E2 & E3 & E4 & E5) & Ok' & Co' & P').
  exists f'. split; [exact L'|].
  unfold key. rewrite E1, E2, E3, E4, E5.
  unfold TriangulationFactor_ctor in Ct.
  destruct model as [m|].
  - destruct (Nat.eqb_spec (NoiseModel_dim m) 2) as [Dm|Dm];
      cbn [negb] in Ct; [|discriminate Ct].
    injection Ct as <-. cbn. repeat split; try assumption.
    now intros m' [= <-].
  - injection Ct as <-. cbn. repeat split; try assumption. discriminate.
Qed.

(** X13.  [equals] compares the base class, the camera and the measurement
    and nothing more: two factors that agree on these three compare alike
    with any other factor, whatever their flags and scratch members. *)
Theorem equals_ignores_flags (f g : TriangulationFactor) (p : NonlinearFactor)
    (tol : double) :
  Base f = Base g ->
  camera_ f = camera_ g ->
  measured_ f = measured_ g ->
  equals f p tol = equals g p tol.
Proof. intros EB EC EM. unfold equals. now rewrite EB, EC, EM. Qed.

(** X14.  A factor built by the constructor without the two flag arguments
    never lets a [CheiralityException] out of [evaluateError], whatever the
    point and the camera do, and never prints. *)
Theorem evaluateError_default_never_cheirality camera measured
    (model : SharedNoiseModel) (pointKey : N) f point (H2 : OptionalJacobian) w :
  TriangulationFactor_ctor_default camera measured model pointKey = Returned f ->
  (forall what, fst (evaluateError f point H2 w) <> Thrown (CheiralityException what))
  /\ cout (snd (evaluateError f point H2 w)) = cout w.
Proof.
  intros Ct.
  assert (Flags : throwCheirality_ f = false /\ verboseCheirality_ f = false).
  { unfold TriangulationFactor_ctor_default, TriangulationFactor_ctor in Ct.
    destruct model as [m|]; [destruct (negb _); [discriminate Ct|]|];
      injection Ct as <-; now split. }
  destruct Flags as (T & V).
  rewrite evaluateError_run.
  destruct (Camera_project (camera_ f) point) as [[pixel D]|e|].
  - split; [discriminate|]. unfold after_projection. now destruct H2.
  - destruct e; try (split; [discriminate|reflexivity]).
    rewrite T. split; [discriminate|].
    unfold after_cheirality. rewrite V. now destruct H2.
  - split; [discriminate|reflexivity].
Qed.

End Locality.

(** * The further properties in the concrete setting *)

Section EvaluatedMore.

Import Scenario Checked TwoFactors.

Lemma evaluateError_other_exception_witness :
  Camera_project (Geometry := geometry_checked) (camera_ factor_checked) no_depth
  = Thrown (other_exception "depth is not a number")
  /\ (forall what,
        other_exception "depth is not a number" <> CheiralityException what)
  /\ evaluateError (G := geometry_checked) factor_checked no_depth (Some 7%N)
       world_checked
     = (Thrown (other_exception "depth is not a number"),
        count_projection world_checked).
Proof.
  split; [reflexivity|]. split; [intros what; discriminate|].
  apply (evaluateError_other_exception (G := geometry_checked));
    [reflexivity|intros what; discriminate].
Defined.

Lemma evaluateError_verbose_fallback_witness :
  Camera_project (camera_ factor_verbose) behind = Thrown (CheiralityException what0)
  /\ throwCheirality_ factor_verbose = false
  /\ verboseCheirality_ factor_verbose = true
  /\ fst (evaluateError factor_verbose behind (Some 7%N) w0)
     = Returned [2%float; 2%float]
  /\ cout (snd (evaluateError factor_verbose behind (Some 7%N) w0))
     = ("CheiralityException: Landmark l0 moved behind camera" ++ endl)%string.
Proof.
  pose proof (evaluateError_verbose_fallback factor_verbose behind (Some 7%N) w0
                what0 eq_refl eq_refl eq_refl) as (R & _ & C).
  do 3 (split; [reflexivity|]). split; [exact R|exact C].
Defined.

Lemma linearize_negates_error_witness :
  objects (world_of factor_noisy) !! 1%N = Some factor_noisy
  /\ scratch_ok factor_noisy = true
  /\ active (Framework := framework) factor_noisy values_front = true
  /\ values_front !! key factor_noisy = Some in_front
  /\ Camera_project (camera_ factor_noisy) in_front
     = Returned (pixel_in_front, D_in_front)
  /\ exists (v : Vector) (H : Matrix),
       fst (evaluateError factor_noisy in_front (Some 7%N) w0) = Returned v
       /\ matrices (snd (evaluateError factor_noisy in_front (Some 7%N) w0)) !! 7%N
          = Some H
       /\ fst (linearize (F := framework) 1%N values_front (world_of factor_noisy))
          = Returned
              (Some (mkJacobianFactor [0%N]
                       (mkVBM 2 [ fst (isotropic_whiten (mkIsotropic 2 2%float) H
                                         (Vector_opp v));
                                  column (snd (isotropic_whiten (mkIsotropic 2 2%float)
                                                 H (Vector_opp v))) ]))).
Proof.
  do 5 (split; [reflexivity|]).
  exact (linearize_negates_error (F := framework) 1%N values_front factor_noisy
           (world_of factor_noisy) in_front pixel_in_front D_in_front 7%N w0
           eq_refl eq_refl eq_refl eq_refl eq_refl).
Defined.

Lemma linearize_local_witness :
  objects w0 !! 1%N = Some factor0
  /\ objects world_moved !! 5%N = Some factor0
  /\ scratch_determined factor0
       (fst (linearize (F := framework) 1%N values_front w0))
  /\ fst (linearize (F := framework) 1%N values_front w0)
     = fst (linearize (F := framework) 5%N values_front world_moved)
  /\ objects (snd (linearize (F := framework) 1%N values_front w0)) !! 1%N
     = objects (snd (linearize (F := framework) 5%N values_front world_moved)) !! 5%N.
Proof.
  assert (Det : scratch_determined factor0
                  (fst (linearize (F := framework) 1%N values_front w0)))
    by (right; eexists; reflexivity).
  destruct (linearize_local (F := framework) 1%N 5%N values_front factor0 w0
              world_moved eq_refl eq_refl) as (R & O).
  do 2 (split; [reflexivity|]). split; [exact Det|]. split; [exact R|exact (O Det)].
Defined.

Lemma clone_linearizes_alike_witness :
  objects w0 !! 1%N = Some factor0
  /\ exists l w1,
       clone 1%N w0 = (Returned l, w1)
       /\ fst (linearize (F := framework) l values_front w1)
          = fst (linearize (F := framework) 1%N values_front w1)
       /\ (scratch_determined factor0
             (fst (linearize (F := framework) 1%N values_front w1)) ->
           objects (snd (linearize (F := framework) l values_front w1)) !! l
           = objects (snd (linearize (F := framework) 1%N values_front w1)) !! 1%N).
Proof.
  split; [reflexivity|].
  destruct (clone_linearizes_alike (F := framework) 1%N factor0 w0 eq_refl)
    as (l & w1 & R & Lin).
  exists l, w1. split; [exact R|]. exact (Lin values_front).
Defined.

Lemma linearize_commutes_witness :
  1%N <> 2%N
  /\ objects world_pair !! 1%N = Some factor0
  /\ objects world_pair !! 2%N = Some factor_noisy
  /\ scratch_determined factor0
       (fst (linearize (F := framework) 1%N values_front world_pair))
  /\ scratch_determined factor_noisy
       (fst (linearize (F := framework) 2%N values_front world_pair))
  /\ fst (linearize (F := framework) 2%N values_front
            (snd (linearize (F := framework) 1%N values_front world_pair)))
     = fst (linearize (F := framework) 2%N values_front world_pair)
  /\ fst (linearize (F := framework) 1%N values_front
            (snd (linearize (F := framework) 2%N values_front world_pair)))
     = fst (linearize (F := framework) 1%N values_front world_pair)
  /\ snd (linearize (F := framework) 2%N values_front
            (snd (linearize (F := framework) 1%N values_front world_pair)))
     = snd (linearize (F := framework) 1%N values_front
              (snd (linearize (F := framework) 2%N values_front world_pair))).
Proof.
  assert (D1 : scratch_determined factor0
                 (fst (linearize (F := framework) 1%N values_front world_pair)))
    by (right; eexists; reflexivity).
  assert (D2 : scratch_determined factor_noisy
                 (fst (linearize (F := framework) 2%N values_front world_pair)))
    by (right; eexists; reflexivity).
  assert (N' : 1%N <> 2%N) by discriminate.
  destruct (linearize_commutes (F := framework) 1%N 2%N values_front values_front
              factor0 factor_noisy world_pair N' eq_refl eq_refl)
    as (R2 & Q2 & _ & _ & _ & _ & W).
  split; [exact N'|]. do 2 (split; [reflexivity|]).
  split; [exact D1|]. split; [exact D2|].
  split; [exact R2|]. split; [exact Q2|exact (W D1 D2)].
Defined.

Lemma linearize_again_witness :
  exists jf f1,
    objects (world_of factor_noisy) !! 1%N = Some factor_noisy
    /\ fst (linearize (F := framework) 1%N values_front (world_of factor_noisy))
       = Returned (Some jf)
    /\ objects (snd (linearize (F := framework) 1%N values_front
                       (world_of factor_noisy))) !! 1%N = Some f1
    /\ active (Framework := framework) f1 values_front = true
    /\ fst (linearize (F := framework) 1%N values_front
              (snd (linearize (F := framework) 1%N values_front
                      (world_of factor_noisy))))
       = Returned (Some jf)
    /\ objects (snd (linearize (F := framework) 1%N values_front
                       (snd (linearize (F := framework) 1%N values_front
                               (world_of factor_noisy))))) !! 1%N
       = Some f1.
Proof.
  eexists. eexists.
  split; [reflexivity|]. split; [reflexivity|]. split; [reflexivity|].
  split; [reflexivity|].
  pose proof (linearize_again (F := framework) 1%N values_front factor_noisy
                (world_of factor_noisy) _ _ eq_refl eq_refl eq_refl eq_refl)
    as (R & O & _).
  split; [exact R|exact O].
Defined.

Lemma linearize_leaves_scratch_allocated_witness :
  objects w0 !! 1%N = Some factor0
  /\ scratch_ok factor0 = true
  /\ active (Framework := framework) factor0 ∅ = true
  /\ fst (linearize (F := framework) 1%N ∅ w0) = Thrown (ValuesKeyDoesNotExist 0%N)
  /\ exists f',
       objects (snd (linearize (F := framework) 1%N ∅ w0)) !! 1%N = Some f'
       /\ vbm_rows (Ab f') = 2
       /\ length (vbm_blocks (Ab f')) = 2.
Proof.
  do 4 (split; [reflexivity|]).
  exact (linearize_leaves_scratch_allocated (F := framework) 1%N ∅ factor0 w0
           eq_refl eq_refl eq_refl).
Defined.

Lemma linearize_frame_witness :
  objects world_moved !! 5%N = Some factor0
  /\ cout (snd (linearize (F := framework) 5%N values_behind world_moved))
     = "earlier output"
  /\ projections (snd (linearize (F := framework) 5%N values_behind world_moved))
     <= 4.
Proof.
  pose proof (linearize_frame (F := framework) 5%N values_behind factor0
                world_moved eq_refl) as (C & _ & (_ & P) & _).
  split; [reflexivity|]. split; [exact C|exact P].
Defined.

Lemma linearize_all_invariant_witness :
  TriangulationFactor_ctor (mkPinhole 1%float) (mkPoint2 0%float 0%float)
    (Some (mkIsotropic 2 2%float)) 0%N false false
  = Returned factor_noisy
  /\ objects (world_of factor_noisy) !! 1%N = Some factor_noisy
  /\ exists f',
       objects (linearize_all (F := framework) 1%N iterations (world_of factor_noisy))
         !! 1%N = Some f'
       /\ camera_ f' = mkPinhole 1%float
       /\ noiseModel_ (Base f') = Some (mkIsotropic 2 2%float)
       /\ scratch_ok f' = true
       /\ projections (linearize_all (F := framework) 1%N iterations
                         (world_of factor_noisy)) <= 3.
Proof.
  do 2 (split; [reflexivity|]).
  destruct (linearize_all_invariant (F := framework) (mkPinhole 1%float)
              (mkPoint2 0%float 0%float) (Some (mkIsotropic 2 2%float)) 0%N
              false false factor_noisy 1%N (world_of factor_noisy) iterations
              eq_refl eq_refl)
    as (f' & L & C & _ & _ & _ & _ & Nm & _ & Ok & _ & P).
  exists f'. split; [exact L|]. split; [exact C|]. split; [exact Nm|].
  split; [exact Ok|exact P].
Defined.

Lemma equals_ignores_flags_witness :
  Base factor_strict = Base factor0
  /\ camera_ factor_strict = camera_ factor0
  /\ measured_ factor_strict = measured_ factor0
  /\ throwCheirality_ factor_strict <> throwCheirality_ factor0
  /\ equals (F := framework) factor_strict (OfThis factor0) default_tol
     = equals (F := framework) factor0 (OfThis factor0) default_tol.
Proof.
  do 3 (split; [reflexivity|]). split; [discriminate|].
  apply (equals_ignores_flags (F := framework)); reflexivity.
Defined.

Lemma evaluateError_default_never_cheirality_witness :
  TriangulationFactor_ctor_default (mkPinhole 1%float) (mkPoint2 0%float 0%float)
    None 0%N
  = Returned factor0
  /\ (forall what,
        fst (evaluateError factor0 behind (Some 7%N) w0)
        <> Thrown (CheiralityException what))
  /\ cout (snd (evaluateError factor0 behind (Some 7%N) w0)) = cout w0.
Proof.
  split; [reflexivity|].
  exact (evaluateError_default_never_cheirality (mkPinhole 1%float)
           (mkPoint2 0%float 0%float) None 0%N factor0 behind (Some 7%N) w0
           eq_refl).
Defined.

End EvaluatedMore.
